(** * CPPNotes: a shallow embedding of [main.cpp] and its specification

    The program is a terminal note manager: a prompt loop reads one command
    line at a time, validates its argument as a file name and creates, loads
    (append / overwrite), lists or deletes notes stored one per file in the
    directory [savedNotes].

    The embedding keeps the structure of the source:
    - [std::string] operations ([find], [substr], [compare]) with [size_t]
      wrap-around and the [out_of_range] exception written out;
    - [std::istream] with its [eofbit] / [failbit] and [std::getline];
    - the save directory as a finite map from file names to contents,
      absent when the directory does not exist;
    - every function of [main.cpp] as a computation in a small state and
      exception monad over the [World] (directory, [cin], [cout], clock). *)

From Stdlib Require Import NArith Ascii String DecimalString.
From stdpp Require Import gmap strings list fin_maps.

Local Open Scope N_scope.
Local Open Scope nat_scope.

(** ** Characters and strings *)

Module Chars.

(** ['\n'], [' '] and the other characters the source names. *)
Definition nl : ascii := "010"%char.
Definition space : ascii := " "%char.
Definition dquote : ascii := "034"%char.
Definition backslash : ascii := "092"%char.

(** [std::isspace] in the "C" locale, which [operator>>] uses to delimit
    words: space, [\t], [\n], [\v], [\f], [\r]. *)
Definition isspace (c : ascii) : bool :=
  let n := nat_of_ascii c in
  Nat.eqb n 32 || (Nat.leb 9 n && Nat.leb n 13).

End Chars.
Import Chars.

(** The one-character string ["\n"]. *)
Definition endl : string := String nl "".

(** [occurs c s]: the character [c] occurs in [s]
    ([s.find(c) != string::npos]). *)
Fixpoint occurs (c : ascii) (s : string) : bool :=
  match s with
  | EmptyString => false
  | String d r => Ascii.eqb c d || occurs c r
  end.

(** A string that holds no line feed: what [std::getline] can return. *)
Definition nl_free (s : string) : Prop := occurs nl s = false.

(** ** [std::string] members used by the program *)

Module StdString.

(** [size_t] is an unsigned 64-bit integer; arithmetic on it wraps. *)
Definition size_t_modulus : N := (2 ^ 64)%N.
Definition npos : N := (size_t_modulus - 1)%N.
Definition size_add (a b : N) : N := ((a + b) mod size_t_modulus)%N.

Definition size (s : string) : N := N.of_nat (String.length s).

(** Position of the first occurrence of [pat] in [s], counted from [i]. *)
Fixpoint find_from (pat s : string) (i : nat) : option nat :=
  if String.prefix pat s then Some i
  else match s with
       | EmptyString => None
       | String _ r => find_from pat r (S i)
       end.

(** [s.find(pat)]: the first position, or [npos]. *)
Definition find (s pat : string) : N :=
  match find_from pat s 0 with
  | Some i => N.of_nat i
  | None => npos
  end.

Fixpoint drop (n : nat) (s : string) : string :=
  match n, s with
  | O, _ => s
  | S _, EmptyString => EmptyString
  | S m, String _ r => drop m r
  end.

Fixpoint take (n : nat) (s : string) : string :=
  match n, s with
  | O, _ => EmptyString
  | S _, EmptyString => EmptyString
  | S m, String c r => String c (take m r)
  end.

(** [s.compare(0, n, pat) == 0]: the first [n] characters of [s] (fewer when
    [s] is shorter) are exactly [pat].  Position [0] is never out of range. *)
Definition compare0 (s : string) (n : nat) (pat : string) : bool :=
  String.eqb (take n s) pat.

End StdString.
Import StdString.

(** ** Exceptions and results

    Nothing in [main.cpp] catches an exception: one that is thrown leaves
    [main] and the process is terminated ([std::terminate]).  [Hang] is a
    loop that never exits. *)

Inductive exn : Type :=
| out_of_range      (* std::string::substr with pos > size() *)
| filesystem_error. (* std::filesystem operations without error_code *)

Inductive result (A : Type) : Type :=
| Ok (a : A)
| Throw (e : exn)
| Hang.
Arguments Ok {A} a.
Arguments Throw {A} e.
Arguments Hang {A}.

(** [s.substr(pos)]: throws [out_of_range] when [pos > size()]. *)
Definition substr (s : string) (pos : N) : result string :=
  if (size s <? pos)%N then Throw out_of_range
  else Ok (drop (N.to_nat pos) s).

(** ** Program constants *)

Definition saveDir : string := "savedNotes".
Definition noteExt : string := ".cppn".
Definition headSep : string := " | ".
Definition quitCmd : string := "!quit".

(** ** The [Note] class *)

Record Note : Type := mkNote {
  name : string;
  timestamp : string;
  content : string;
}.

Definition getName (n : Note) : string := name n.
Definition getTimestamp (n : Note) : string := timestamp n.
Definition getContent (n : Note) : string := content n.
Definition setContent (newContent : string) (n : Note) : Note :=
  {| name := name n; timestamp := timestamp n; content := newContent |}.

(** ** [getCurrentTime] *)

(** The fields of [struct tm] that the format reads. *)
Record tm : Type := mkTm {
  tm_year : nat; (* years since 1900 *)
  tm_mon : nat;  (* 0 .. 11 *)
  tm_mday : nat; (* 1 .. 31 *)
  tm_hour : nat; (* 0 .. 23 *)
  tm_min : nat;  (* 0 .. 59 *)
}.

Definition dec (n : nat) : string := NilEmpty.string_of_uint (Nat.to_uint n).

(** [%m], [%d], [%H], [%M]: decimal, zero-padded to two digits. *)
Definition pad2 (n : nat) : string :=
  if Nat.ltb n 10 then "0" +:+ dec n else dec n.

(** [put_time(&local_tm, "%Y-%m-%d [%H:%M]")]. *)
Definition put_time (t : tm) : string :=
  dec (1900 + tm_year t) +:+ "-" +:+ pad2 (S (tm_mon t)) +:+ "-"
  +:+ pad2 (tm_mday t) +:+ " [" +:+ pad2 (tm_hour t) +:+ ":"
  +:+ pad2 (tm_min t) +:+ "]".

(** ** Command-line parsing *)

(** [countWords]: [stream >> word] skips white space and extracts one maximal
    run of other characters; the loop counts how many times that succeeds.
    [inWord] records that the scan is inside such a run. *)
Fixpoint countWords_from (inWord : bool) (text : string) : nat :=
  match text with
  | EmptyString => 0
  | String c r =>
      if isspace c then countWords_from false r
      else (if inWord then 0 else 1) + countWords_from true r
  end.

Definition countWords (text : string) : nat := countWords_from false text.

(** [extractArg]: everything after the first space, the empty string when
    there is none.
    [firstSpacePos + 1 <= size()], so this [substr] never throws. *)
Definition extractArg (text : string) : string :=
  if negb (find text " " =? npos)%N then
    let firstSpacePos := find text " " in
    drop (N.to_nat (size_add firstSpacePos 1)) text
  else "".

(** [containsCharsFrom]. *)
Fixpoint containsCharsFrom (text chars : string) : bool :=
  match text with
  | EmptyString => false
  | String c r => if occurs c chars then true else containsCharsFrom r chars
  end.

(** The nine reserved characters: less-than, greater-than, colon, double
    quote, slash, backslash, vertical bar, question mark and asterisk. *)
Definition invalidChars : string :=
  String "<" (String ">" (String ":" (String dquote (String "/"
  (String backslash (String "|" (String "?" (String "*" "")))))))).

(** [validateInput]. *)
Definition validateInput (input : string) : bool :=
  if containsCharsFrom input invalidChars then false
  else if (255 <=? size input)%N then false
  else true.

(** ** [std::istream] and [std::getline] *)

Record istream : Type := mkStream {
  buf : string;     (* the characters not yet extracted *)
  eofbit : bool;
  failbit : bool;
}.

Definition good (s : istream) : bool := negb (eofbit s) && negb (failbit s).

(** A freshly opened stream over the given characters. *)
Definition stream_of (s : string) : istream :=
  {| buf := s; eofbit := false; failbit := false |}.

(** Extract characters up to the next line feed, which is extracted and
    dropped; the flag tells that the end of the input was reached first. *)
Fixpoint take_line (s : string) : string * string * bool :=
  match s with
  | EmptyString => (EmptyString, EmptyString, true)
  | String c r =>
      if Ascii.eqb c nl then (EmptyString, r, false)
      else let '(l, rest, e) := take_line r in (String c l, rest, e)
  end.

(** [getline(ins, str)]: the value of the call as a condition, the new value of
    [str] and the new stream.  On a stream that is not good the sentry fails:
    [failbit] is set and [str] keeps its value.  Otherwise [str] is erased and
    filled; extracting nothing at all sets [failbit]. *)
Definition getline (ins : istream) (str : string) : bool * string * istream :=
  if good ins then
    match buf ins with
    | EmptyString =>
        (false, EmptyString, {| buf := ""; eofbit := true; failbit := true |})
    | _ =>
        let '(line, rest, e) := take_line (buf ins) in
        (true, line, {| buf := rest; eofbit := e; failbit := false |})
    end
  else (false, str, {| buf := buf ins; eofbit := eofbit ins; failbit := true |}).

(** ** The world the process runs in *)

(** The save directory maps the name of each file in it to the file's
    contents; [None] when the directory does not exist.  A note titled [t]
    lives in [savedNotes/t.cppn]: for a title without a path separator (the
    only ones the prompt lets through) the file's name is [t ++ noteExt].
    File names are compared exactly (a case-sensitive file system), and a file
    in an existing directory can always be opened. *)
Record World : Type := mkWorld {
  disk : option (gmap string string);
  cin : istream;
  cout : string;
  localtime : tm; (* what the system clock shows *)
}.

Definition fileName (title : string) : string := title +:+ noteExt.

Definition set_disk (d : option (gmap string string)) (w : World) : World :=
  {| disk := d; cin := cin w; cout := cout w; localtime := localtime w |}.
Definition set_cin (s : istream) (w : World) : World :=
  {| disk := disk w; cin := s; cout := cout w; localtime := localtime w |}.
Definition put (s : string) (w : World) : World :=
  {| disk := disk w; cin := cin w; cout := cout w +:+ s;
     localtime := localtime w |}.

(** ** The monad of the program: state, exceptions, divergence *)

Definition M (A : Type) : Type := World -> result (A * World).

Global Instance M_ret : MRet M := fun A a w => Ok (a, w).
Global Instance M_bind : MBind M := fun A B f m w =>
  match m w with
  | Ok (a, w') => f a w'
  | Throw e => Throw e
  | Hang => Hang
  end.

(** A pure computation that may throw. *)
Definition lift {A} (r : result A) : M A := fun w =>
  match r with
  | Ok a => Ok (a, w)
  | Throw e => Throw e
  | Hang => Hang
  end.

(** [cout << s]. *)
Definition print (s : string) : M unit := fun w => Ok (tt, put s w).

(** [getline(cin, str)], the condition ignored as the source does. *)
Definition cin_getline (str : string) : M string := fun w =>
  let '(_, str', ins) := getline (cin w) str in Ok (str', set_cin ins w).

(** [system(clearScreen)]: clears the terminal, nothing the model observes. *)
Definition system_clearScreen : M unit := mret tt.

(** [getCurrentTime]. *)
Definition getCurrentTime : M string := fun w => Ok (put_time (localtime w), w).

(** [fs::exists(saveDir / (title + noteExt))]. *)
Definition fs_exists (title : string) (w : World) : bool :=
  match disk w with
  | Some d => bool_decide (is_Some (d !! fileName title))
  | None => false
  end.

(** ** The operations of [main.cpp] *)

(** The blank-line separator ["\n\n"]. *)
Definition endl2 : string := endl +:+ endl.

(** [saveNote]: [ofstream outfile(filePath)] truncates or creates the file;
    it cannot be opened when the directory is missing. *)
Definition saveNote (note : Note) : M unit := fun w =>
  match disk w with
  | Some d =>
      print (getName note +:+ " successfully saved!" +:+ endl2)
        (set_disk (Some (<[fileName (getName note) := getContent note]> d)) w)
  | None =>
      print ("ERROR: " +:+ getName note +:+ " failed to save." +:+ endl2) w
  end.

(** The [while (true)] loop of [openNote].  Every pass that extracts
    something takes at least one character from [cin], and once [cin] is not
    good [line] never changes again, so a loop that has not left after
    [length (buf cin) + 1] passes never leaves: [Hang].  ([editLoop_fuel]
    below: more fuel than that changes nothing.) *)
Fixpoint editLoop (fuel : nat) (line newContent : string) : M string :=
  match fuel with
  | O => fun _ => Hang
  | S n =>
      line ← cin_getline line;
      if String.eqb line quitCmd then mret newContent
      else editLoop n line (newContent +:+ line +:+ endl)
  end.

(** The loop as [openNote] runs it: [line] and [newContent] start empty. *)
Definition editSession : M string := fun w =>
  editLoop (S (String.length (buf (cin w)))) "" "" w.

(** [openNote]. *)
Definition openNote (note : Note) : M unit :=
  let startUserContent := find (getContent note) endl2 in
  userContent ← lift (substr (getContent note) (size_add startUserContent 2));
  let head := getName note +:+ headSep +:+ getTimestamp note +:+ endl2 in
  system_clearScreen;;
  print (getName note +:+ headSep +:+ getTimestamp note +:+ endl);;
  print ("Type !quit on a new line to exit." +:+ endl2);;
  print userContent;;
  newContent ← editSession;
  let note := setContent (head +:+ userContent +:+ newContent) note in
  saveNote note.

(** [createNote]. *)
Definition createNote (title : string) : M unit := fun w =>
  if fs_exists title w then
    print ("ERROR: '" +:+ title +:+ "' already exists." +:+ endl2) w
  else
    (now ← getCurrentTime;
     let note := mkNote title now "" in
     let note :=
       setContent (getName note +:+ headSep +:+ getTimestamp note +:+ endl2)
                  note in
     openNote note) w.

(** The [for] loop of [loadNote] in append mode: one pass per line that
    [getline] extracts from the file.  The loop ends at the first call that
    fails, which comes after at most [length (buf infile)] successful ones
    ([readLines_fuel] below: more fuel than that changes nothing). *)
Fixpoint readLines (fuel : nat) (infile : istream) (line loadedContent : string)
  : string :=
  match fuel with
  | O => loadedContent
  | S n =>
      let '(ok, line, infile) := getline infile line in
      if ok then readLines n infile line (loadedContent +:+ line +:+ endl)
      else loadedContent
  end.

(** [head.substr(sep + headSep.length())] with [sep = head.find(headSep)]:
    the time stamp that [loadNote] takes from the header line. *)
Definition headerTimestamp (head : string) : result string :=
  let sep := find head headSep in
  substr head (size_add sep (size headSep)).

(** The [Note] that [loadNote] builds from an opened file and hands to
    [openNote]: the statements between [getline(infile, head)] and
    [note.setContent]. *)
Definition loadedNote (title : string) (appendMode : bool) (file : string)
  : result Note :=
  let '(_, head, infile) := getline (stream_of file) "" in
  match headerTimestamp head with
  | Ok stamp =>
      let note := mkNote title stamp "" in
      let loadedContent :=
        if appendMode
        then readLines (S (String.length (buf infile))) infile "" ""
        else endl in
      Ok (setContent (head +:+ endl +:+ loadedContent) note)
  | Throw e => Throw e
  | Hang => Hang
  end.

(** [loadNote]. *)
Definition loadNote (title : string) (appendMode : bool) : M unit := fun w =>
  match disk w ≫= (.!! fileName title) with
  | Some file => (* infile.is_open() *)
      (system_clearScreen;;
       note ← lift (loadedNote title appendMode file);
       openNote note) w
  | None =>
      print ("ERROR: '" +:+ title +:+ "' does not exist or failed to load."
             +:+ endl2) w
  end.

(** [path::stem]: the file name without its last extension; a name that is
    [.] or [..], or whose only dot is the first character, has none. *)
Fixpoint rfind_dot (s : string) (i : nat) : option nat :=
  match s with
  | EmptyString => None
  | String c r =>
      match rfind_dot r (S i) with
      | Some j => Some j
      | None => if Ascii.eqb c "."%char then Some i else None
      end
  end.

Definition stem (file : string) : string :=
  if String.eqb file "." || String.eqb file ".." then file
  else match rfind_dot file 0 with
       | Some (S p) => take (S p) file
       | _ => file
       end.

(** [listNotes].  The iterator is constructed first, and
    [fs::directory_iterator(saveDir)] throws [filesystem_error] when the
    directory cannot be opened; the test for a missing directory comes after
    it.  Entries are listed in the order the map enumerates them. *)
Definition listNotes : M unit := fun w =>
  match disk w with
  | None => Throw filesystem_error
  | Some d =>
      let dirIter := (map_to_list d).*1 in
      if negb (bool_decide (is_Some (disk w))) then
        print ("ERROR: Could not find save directory." +:+ endl2) w
      else
        match dirIter with
        | [] => print ("No files found." +:+ endl2) w
        | _ =>
            (print (String.concat "" (map (fun f => stem f +:+ endl) dirIter));;
             print endl) w
        end
  end.

(** [deleteNote]: [fs::remove] is [true] when a file was removed, [false] when
    there was none. *)
Definition deleteNote (title : string) : M unit := fun w =>
  match disk w with
  | Some d =>
      if bool_decide (is_Some (d !! fileName title)) then
        print (title +:+ " successfully deleted!" +:+ endl2)
              (set_disk (Some (delete (fileName title) d)) w)
      else
        print ("ERROR: " +:+ title +:+ " not found or failed to delete."
               +:+ endl2) w
  | None =>
      print ("ERROR: " +:+ title +:+ " not found or failed to delete."
             +:+ endl2) w
  end.

(** ** The prompt loop *)

(** What one command line makes [promptHandler] do: one constructor per
    branch of its [if] / [else if] chain. *)
Inductive Action : Type :=
| AExit
| AHelp
| ACls
| AList
| AInvalid (arg : string)
| ADelete (arg : string)
| ACreate (arg : string)
| ALoad (arg : string) (appendMode : bool)
| AMissing
| AUnknown.

(** The conditions of the chain, in the order of the source. *)
Definition route (cmd : string) : Action :=
  let arg := extractArg cmd in
  if String.eqb cmd "exit" then AExit
  else if String.eqb cmd "help" then AHelp
  else if String.eqb cmd "cls" then ACls
  else if String.eqb cmd "list" then AList
  else if Nat.eqb (countWords cmd) 2 && negb (validateInput arg)
    then AInvalid arg
  else if compare0 cmd 4 "del " && Nat.eqb (countWords cmd) 2
    then ADelete arg
  else if compare0 cmd 4 "new " && Nat.eqb (countWords cmd) 2
    then ACreate arg
  else if compare0 cmd 4 "app " && Nat.eqb (countWords cmd) 2
    then ALoad arg true
  else if compare0 cmd 3 "ow " && Nat.eqb (countWords cmd) 2
    then ALoad arg false
  else if compare0 cmd 3 "del" || compare0 cmd 3 "new"
          || compare0 cmd 3 "app" || compare0 cmd 2 "ow"
    then AMissing
  else AUnknown.

Inductive loopctl : Type := Break | Continue.

Definition helpText : string :=
  "- 'new [note]' to create a new note." +:+ endl +:+
  "- 'app [note]' to append an existing note." +:+ endl +:+
  "- 'ow [note]' to overwrite an existing note." +:+ endl +:+
  "- 'del [note]' to delete an existing note." +:+ endl +:+
  "- 'cls' to clear the screen." +:+ endl +:+
  "- 'exit' to exit the program." +:+ endl2.

Definition missingArgText : string :=
  "ERROR: Missing argument (filename)." +:+ endl2.

(** The bodies of the branches. *)
Definition perform (cmd : string) (a : Action) : M loopctl :=
  match a with
  | AExit => mret Break
  | AHelp => print helpText;; mret Continue
  | ACls => system_clearScreen;; mret Continue
  | AList => listNotes;; mret Continue
  | AInvalid arg =>
      print ("'" +:+ arg +:+ "' is not a valid filename." +:+ endl2);;
      mret Continue
  | ADelete arg => deleteNote arg;; mret Continue
  | ACreate arg => createNote arg;; mret Continue
  | ALoad arg appendMode => loadNote arg appendMode;; mret Continue
  | AMissing => print missingArgText;; mret Continue
  | AUnknown =>
      print ("'" +:+ cmd +:+ "' is not a valid command." +:+ endl2);;
      mret Continue
  end.

(** Everything one pass of the loop does once [cmd] has been read. *)
Definition dispatch (cmd : string) : M loopctl := perform cmd (route cmd).

(** One pass of the [while (true)] loop of [promptHandler]; [cmd] is the
    variable declared outside the loop, returned with its new value. *)
Definition promptIter (cmd : string) : M (loopctl * string) :=
  print "$~ ";;
  cmd ← cin_getline cmd;
  ctl ← dispatch cmd;
  mret (ctl, cmd).

(** The [while (true)] loop of [promptHandler] has no bound of its own:
    [promptLoop passes] runs at most [passes] passes of it, and is [Hang] when
    the loop has not been left by then. *)
Fixpoint promptLoop (passes : nat) (cmd : string) : M unit :=
  match passes with
  | O => fun _ => Hang
  | S n =>
      r ← promptIter cmd;
      match r.1 with
      | Break => mret tt
      | Continue => promptLoop n r.2
      end
  end.

(** [promptHandler]: [cmd] starts empty. *)
Definition promptHandler (passes : nat) : M unit := promptLoop passes "".

(** [main]; an exception that leaves it ends the process. *)
Definition main (passes : nat) : M unit :=
  print ("Welcome to CPPNotes!" +:+ endl);;
  print ("Enter a command (new | app | ow | list | del | help | cls | exit)"
         +:+ endl2);;
  (fun w =>
     if negb (bool_decide (is_Some (disk w)))
     then Ok (tt, set_disk (Some ∅) w) else Ok (tt, w));;
  promptHandler passes.

(** ** Vocabulary of the specification *)

(** The header line of a stored file: what [getline(infile, head)] reads. *)
Definition headerLine (file : string) : string :=
  (getline (stream_of file) "").1.2.

(** Text that is empty or whose last character is a line feed: a sequence of
    lines each ended by its line feed. *)
Fixpoint newline_terminated (s : string) : bool :=
  match s with
  | EmptyString => true
  | String c r =>
      match r with
      | EmptyString => Ascii.eqb c nl
      | _ => newline_terminated r
      end
  end.

(** Each line followed by a line feed. *)
Fixpoint unlines (ls : list string) : string :=
  match ls with
  | [] => ""
  | l :: ls => l +:+ endl +:+ unlines ls
  end.

(** The lines of a typed text: the text cut at every line feed. *)
Fixpoint lines_of (s : string) : list string :=
  match s with
  | EmptyString => [""]
  | String c r =>
      if Ascii.eqb c nl then "" :: lines_of r
      else match lines_of r with
           | l :: ls => String c l :: ls
           | [] => [String c ""]
           end
  end.

(** The format of a note file: the header line [name | timestamp], a blank
    line, then the body.  The name is the title the file is stored under. *)
Definition noteFormat (file contents : string) : Prop :=
  ∃ title stamp body,
    file = fileName title ∧
    contents = title +:+ headSep +:+ stamp +:+ endl2 +:+ body ∧
    nl_free title ∧ nl_free stamp.

(** The contents of the file called [file], if the directory has it. *)
Definition stored (w : World) (file : string) : option string :=
  disk w ≫= (.!! file).

(** The typed text holds no line that is the sentinel. *)
Definition sentinel_free (text : string) : Prop :=
  Forall (λ l, l ≠ quitCmd) (lines_of text).

(** The four command prefixes that take a title. *)
Definition takesTitle (pre : string) : Prop :=
  pre = "new " ∨ pre = "app " ∨ pre = "ow " ∨ pre = "del ".
(** The characters that the specification reserves. *)
Definition reserved (c : ascii) : Prop :=
  c = "<"%char ∨ c = ">"%char ∨ c = ":"%char ∨ c = dquote ∨ c = "/"%char ∨
  c = backslash ∨ c = "|"%char ∨ c = "?"%char ∨ c = "*"%char.

(** The title that a command line hands to a note operation, if it does. *)
Definition routedTitle (a : Action) : option string :=
  match a with
  | ADelete t | ACreate t | ALoad t _ => Some t
  | _ => None
  end.

(** ** Further vocabulary *)

(** Text made of white space only, and text without any. *)
Fixpoint blank (s : string) : bool :=
  match s with
  | EmptyString => true
  | String c r => isspace c && blank r
  end.

Fixpoint solid (s : string) : bool :=
  match s with
  | EmptyString => true
  | String c r => negb (isspace c) && solid r
  end.

(** The command words that the last test of the prompt loop looks for. *)
Definition commandWord (word : string) : Prop :=
  word = "del" ∨ word = "new" ∨ word = "app" ∨ word = "ow".

(** What [main] prints before the first prompt. *)
Definition welcomeText : string :=
  "Welcome to CPPNotes!" +:+ endl +:+
  "Enter a command (new | app | ow | list | del | help | cls | exit)"
  +:+ endl2.

(** ** Sample worlds *)

Module Examples.

(** 5 January 2024, 09:07. *)
Definition clock0 : tm :=
  {| tm_year := 124; tm_mon := 0; tm_mday := 5; tm_hour := 9; tm_min := 7 |}.

Definition stamp0 : string := "2024-01-05 [09:07]".

(** A world with the given directory and pending input, nothing printed. *)
Definition world (d : option (gmap string string)) (input : string) : World :=
  {| disk := d; cin := stream_of input; cout := ""; localtime := clock0 |}.

(** The note [foo] as the program stores it, with the body [hello]. *)
Definition foo_file : string :=
  "foo" +:+ headSep +:+ stamp0 +:+ endl2 +:+ "hello" +:+ endl.

Definition foo_dir : gmap string string := {[ "foo.cppn" := foo_file ]}.

(** The same note after an editor that left the last line open: the body
    [abc] has no final line feed. *)
Definition open_file : string :=
  "foo" +:+ headSep +:+ stamp0 +:+ endl2 +:+ "abc".

Definition open_dir : gmap string string := {[ "foo.cppn" := open_file ]}.

(** The file of [foo] under another name, [bar.cppn]. *)
Definition bar_dir : gmap string string := {[ "bar.cppn" := foo_file ]}.

(** The sentinel line alone. *)
Definition quitLine : string := quitCmd +:+ endl.

(** An empty directory in which [new foo] is typed, then one line and the
    sentinel; and the world after that pass of the prompt loop. *)
Definition before_new : World :=
  world (Some ∅) ("new foo" +:+ endl +:+ "hi" +:+ endl +:+ quitLine).

Definition after_new : World :=
  match promptIter "" before_new with
  | Ok (_, w') => w'
  | _ => before_new
  end.

End Examples.

(** Unfolding the monad of the program. *)
Ltac run :=
  repeat (progress (unfold mbind, M_bind, mret, M_ret, print, lift,
                      system_clearScreen, getCurrentTime; cbn beta iota)).

(** * Facts about the embedding *)

(** ** Strings *)

Local Arguments nl : simpl never.
Local Arguments Ascii.eqb : simpl never.

Section StringFacts.
Implicit Types s t u : string.
Implicit Types c : ascii.

(** [String.append] is kept folded by [simpl]; these two equations
    unfold it one step. *)
Lemma app_nil_l s : "" +:+ s = s.
Proof. reflexivity. Qed.

Lemma app_cons c s t : String c s +:+ t = String c (s +:+ t).
Proof. reflexivity. Qed.

Lemma app_nil_r s : s +:+ "" = s.
Proof.
  induction s as [|c s IH]; [done |]. by rewrite app_cons, IH.
Qed.

Lemma app_assoc s t u : (s +:+ t) +:+ u = s +:+ t +:+ u.
Proof.
  induction s as [|c s IH]; [done |]. by rewrite !app_cons, IH.
Qed.

Lemma length_app s t :
  String.length (s +:+ t) = String.length s + String.length t.
Proof.
  induction s as [|c s IH]; [done |]. rewrite app_cons. simpl. by rewrite IH.
Qed.

Lemma occurs_app c s t : occurs c (s +:+ t) = occurs c s || occurs c t.
Proof.
  induction s as [|d s IH]; [done |]. rewrite app_cons. simpl.
  rewrite IH. by destruct (Ascii.eqb c d).
Qed.

Lemma nl_free_app s t : nl_free s → nl_free t → nl_free (s +:+ t).
Proof. unfold nl_free. intros Hs Ht. by rewrite occurs_app, Hs, Ht. Qed.

Lemma occurs_drop c n s : occurs c s = false → occurs c (drop n s) = false.
Proof.
  revert s. induction n as [|n IH]; intros [|d s]; simpl; try done.
  intros [_ H]%orb_false_elim. by apply IH.
Qed.

Lemma nl_free_drop n s : nl_free s → nl_free (drop n s).
Proof. apply occurs_drop. Qed.

Lemma drop_app s t : drop (String.length s) (s +:+ t) = t.
Proof. induction s as [|c s IH]; [by destruct t | done]. Qed.

Lemma prefix_app s t : String.prefix s (s +:+ t) = true.
Proof.
  induction s as [|c s IH]; [by destruct t |]. rewrite app_cons. simpl.
  destruct (ascii_dec c c); [done | congruence].
Qed.

Lemma size_app s t : size (s +:+ t) = (size s + size t)%N.
Proof. unfold size. rewrite length_app. lia. Qed.
End StringFacts.

(** ** Reading lines *)

Section Lines.
Implicit Types s l rest : string.

Lemma take_line_nl_free s : nl_free (take_line s).1.1.
Proof.
  induction s as [|c s IH]; [done |]. simpl.
  destruct (Ascii.eqb c nl) eqn:E; [done |].
  destruct (take_line s) as [[l rest] e]. simpl in *.
  unfold nl_free in *. simpl. rewrite Ascii.eqb_sym, E. done.
Qed.

(** A line followed by its line feed is what [take_line] extracts. *)
Lemma take_line_app l rest :
  nl_free l → take_line (l +:+ endl +:+ rest) = (l, rest, false).
Proof.
  unfold nl_free. induction l as [|c l IH]; [done |].
  rewrite app_cons. simpl. intros [Hc Hl]%orb_false_elim.
  rewrite Ascii.eqb_sym, Hc. by rewrite (IH Hl).
Qed.

(** A text made of ended lines: its first line, and the rest is again made
    of ended lines and is shorter. *)
Lemma take_line_terminated s :
  newline_terminated s = true → s ≠ "" →
  ∃ l rest, take_line s = (l, rest, false) ∧ s = l +:+ endl +:+ rest ∧
            newline_terminated rest = true ∧
            String.length rest < String.length s.
Proof.
  induction s as [|c s IH]; [done |]. intros Ht _. simpl.
  destruct (Ascii.eqb c nl) eqn:E.
  - apply Ascii.eqb_eq in E as ->. exists "", s. repeat split; simpl; try lia.
    destruct s; [done | exact Ht].
  - destruct s as [|d s]; [simpl in Ht; congruence |].
    destruct IH as (l & rest & Htl & Hs & Hr & Hlen); [exact Ht | done |].
    rewrite Htl. exists (String c l), rest. repeat split; try done.
    + rewrite app_cons. by rewrite <- Hs.
    + simpl in *. lia.
Qed.

Lemma getline_good s str :
  s ≠ "" → getline (stream_of s) str =
           let '(l, rest, e) := take_line s in
           (true, l, {| buf := rest; eofbit := e; failbit := false |}).
Proof. by destruct s. Qed.

Lemma getline_line l rest str :
  nl_free l →
  getline (stream_of (l +:+ endl +:+ rest)) str = (true, l, stream_of rest).
Proof.
  intros Hl. rewrite getline_good; [by rewrite take_line_app |].
  by destruct l.
Qed.

Lemma getline_nl_free ins str : nl_free str → nl_free (getline ins str).1.2.
Proof.
  intros Hstr. unfold getline. destruct (good ins); [| done].
  destruct (buf ins) as [|c b] eqn:Hb; [done |].
  pose proof (take_line_nl_free (String c b)) as H.
  by destruct (take_line (String c b)) as [[l rest] e].
Qed.

(** The append-mode loop gives back a text of ended lines unchanged. *)
Lemma readLines_terminated fuel s line acc :
  newline_terminated s = true → String.length s < fuel →
  readLines fuel (stream_of s) line acc = acc +:+ s.
Proof.
  revert s line acc. induction fuel as [|fuel IH]; intros s line acc Ht Hf;
    [lia |].
  destruct (decide (s = "")) as [-> | Hne]; [by rewrite app_nil_r |].
  destruct (take_line_terminated s Ht Hne) as (l & rest & Htl & Hs & Hr & Hlen).
  simpl. rewrite getline_good, Htl by done.
  change {| buf := rest; eofbit := false; failbit := false |}
    with (stream_of rest).
  rewrite IH by (done || lia). by rewrite Hs, !app_assoc.
Qed.

Lemma take_line_shorter s :
  String.length (take_line s).1.2 ≤ pred (String.length s).
Proof.
  induction s as [|c s IH]; [done |]. simpl.
  destruct (Ascii.eqb c nl); [done |].
  destruct (take_line s) as [[l rest] e]. simpl in *. lia.
Qed.

(** A last line without a line feed is extracted whole. *)
Lemma take_line_whole l : nl_free l → take_line l = (l, "", true).
Proof.
  unfold nl_free. induction l as [|c l IH]; [done |]. simpl.
  intros [Hc Hl]%orb_false_elim. rewrite Ascii.eqb_sym, Hc. by rewrite IH.
Qed.

(** The append-mode loop does not depend on its fuel once that exceeds the
    number of characters left in the file: the fuel that [loadedNote] gives
    it is enough. *)
Lemma readLines_fuel f1 f2 ins line acc :
  String.length (buf ins) < f1 → String.length (buf ins) < f2 →
  readLines f1 ins line acc = readLines f2 ins line acc.
Proof.
  revert f2 ins line acc.
  induction f1 as [|f1 IH]; intros [|f2] ins line acc H1 H2; try lia.
  simpl. unfold getline. destruct (good ins); [| done].
  destruct (buf ins) as [|c b] eqn:Hb; [done |].
  pose proof (take_line_shorter (String c b)) as Hlen.
  destruct (take_line (String c b)) as [[l rest] e]. simpl in *.
  apply IH; simpl; lia.
Qed.


Lemma unlines_lines_of s : unlines (lines_of s) = s +:+ endl.
Proof.
  induction s as [|c s IH]; [done |]. simpl.
  destruct (Ascii.eqb c nl) eqn:E.
  - apply Ascii.eqb_eq in E as ->. simpl. by rewrite IH.
  - destruct (lines_of s) as [|l ls]; [by destruct s |].
    simpl in *. by rewrite !app_cons, IH.
Qed.

Lemma lines_of_nl_free s : Forall nl_free (lines_of s).
Proof.
  induction s as [|c s IH]; [by repeat constructor |]. simpl.
  destruct (Ascii.eqb c nl) eqn:E; [by constructor |].
  assert (Hc : ∀ l, nl_free l → nl_free (String c l)).
  { unfold nl_free. intros l Hl. simpl. by rewrite Ascii.eqb_sym, E. }
  destruct (lines_of s) as [|l ls]; [by repeat constructor; apply Hc |].
  inversion IH; subst. constructor; [by apply Hc | done].
Qed.
End Lines.

(** ** [find], [substr] and the header line *)

Section Header.
Implicit Types s t h r title stamp pat : string.

Lemma find_from_here pat s i :
  String.prefix pat s = true → find_from pat s i = Some i.
Proof. intros H. destruct s; cbn [find_from]; by rewrite H. Qed.

Lemma find_from_next pat c s i :
  String.prefix pat (String c s) = false →
  find_from pat (String c s) i = find_from pat s (S i).
Proof. intros H. cbn [find_from]. by rewrite H. Qed.

Lemma prefix_cons_ne a pat c s :
  a ≠ c → String.prefix (String a pat) (String c s) = false.
Proof. intros H. cbn [String.prefix]. by destruct (ascii_dec a c). Qed.

Lemma prefix_cons_eq a pat s :
  String.prefix (String a pat) (String a s) = String.prefix pat s.
Proof. cbn [String.prefix]. by destruct (ascii_dec a a). Qed.

Lemma endl2_eq : endl2 = String nl (String nl "").
Proof. reflexivity. Qed.

Lemma headSep_eq : headSep = String " " (String "|" (String " " "")).
Proof. reflexivity. Qed.

Lemma eqb_false_ne (a c : ascii) : Ascii.eqb a c = false → a ≠ c.
Proof. by intros H%Ascii.eqb_neq. Qed.

Lemma find_from_endl2 h r i :
  nl_free h →
  find_from endl2 (h +:+ endl2 +:+ r) i = Some (i + String.length h).
Proof.
  unfold nl_free. revert i. induction h as [|c h IH]; intros i Hh.
  - rewrite app_nil_l, find_from_here by apply prefix_app.
    f_equal. simpl. lia.
  - rewrite app_cons. simpl in Hh. apply orb_false_elim in Hh as [Hc Hh].
    rewrite find_from_next, IH by
      (done || (rewrite endl2_eq; by apply prefix_cons_ne, eqb_false_ne)).
    f_equal. simpl. lia.
Qed.

Lemma find_endl2 h r : nl_free h → find (h +:+ endl2 +:+ r) endl2 = size h.
Proof. intros Hh. unfold find. by rewrite find_from_endl2. Qed.

(** The first separator of [title | stamp] is the one after the title when
    the title has no vertical bar. *)
Lemma find_from_headSep title r i :
  occurs "|" title = false →
  find_from headSep (title +:+ headSep +:+ r) i
  = Some (i + String.length title).
Proof.
  revert i. induction title as [|c t IH]; intros i Ht.
  - rewrite app_nil_l, find_from_here by apply prefix_app.
    f_equal. simpl. lia.
  - rewrite app_cons. simpl in Ht. apply orb_false_elim in Ht as [Hc Ht].
    assert (String.prefix headSep (String c (t +:+ headSep +:+ r)) = false)
      as Hp.
    { rewrite headSep_eq at 1.
      destruct (decide (" "%char = c)) as [<- | Hne];
        [| by apply prefix_cons_ne].
      rewrite prefix_cons_eq. destruct t as [|d t].
      - rewrite app_nil_l, headSep_eq. by apply prefix_cons_ne.
      - rewrite app_cons. simpl in Ht. apply orb_false_elim in Ht as [Hd _].
        by apply prefix_cons_ne, eqb_false_ne. }
    rewrite find_from_next, IH by done. f_equal. simpl. lia.
Qed.

Lemma find_headSep title r :
  occurs "|" title = false →
  find (title +:+ headSep +:+ r) headSep = size title.
Proof. intros Ht. unfold find. by rewrite find_from_headSep. Qed.

Lemma size_add_small a b :
  (a + b < size_t_modulus)%N → size_add a b = (a + b)%N.
Proof. intros H. unfold size_add. by apply N.mod_small. Qed.

Lemma substr_app s t :
  substr (s +:+ t) (size s) = Ok t.
Proof.
  unfold substr. rewrite size_app.
  destruct (N.ltb_spec (size s + size t) (size s)); [lia |].
  unfold size. by rewrite Nat2N.id, drop_app.
Qed.

(** Reading the time stamp back from a header line. *)
Lemma headerTimestamp_first hname stamp :
  find (hname +:+ headSep +:+ stamp) headSep = size hname →
  (size (hname +:+ headSep +:+ stamp) < size_t_modulus)%N →
  headerTimestamp (hname +:+ headSep +:+ stamp) = Ok stamp.
Proof.
  intros Hf Hsz. unfold headerTimestamp. rewrite Hf.
  rewrite !size_app in Hsz. rewrite size_add_small by lia.
  rewrite <- size_app, <- app_assoc. apply substr_app.
Qed.

Lemma headerTimestamp_header title stamp :
  occurs "|" title = false →
  (size (title +:+ headSep +:+ stamp) < size_t_modulus)%N →
  headerTimestamp (title +:+ headSep +:+ stamp) = Ok stamp.
Proof. intros Ht. apply headerTimestamp_first. by apply find_headSep. Qed.

(** Whatever the header line is, a time stamp read from it has no line
    feed when the line has none. *)
Lemma headerTimestamp_nl_free head stamp :
  nl_free head → headerTimestamp head = Ok stamp → nl_free stamp.
Proof.
  unfold headerTimestamp, substr. intros Hh.
  destruct (_ <? _)%N; [done |]. intros [= <-]. by apply nl_free_drop.
Qed.

(** A validated title has none of the reserved characters. *)
Lemma containsCharsFrom_false text chars c :
  containsCharsFrom text chars = false → occurs c chars = true →
  occurs c text = false.
Proof.
  induction text as [|d t IH]; [done |]. simpl.
  destruct (occurs d chars) eqn:Hd; [done |]. intros Ht Hc.
  rewrite IH by done. destruct (Ascii.eqb_spec c d) as [-> | _]; [| done].
  congruence.
Qed.

Lemma validateInput_no_bar title :
  validateInput title = true → occurs "|" title = false.
Proof.
  unfold validateInput.
  destruct (containsCharsFrom title invalidChars) eqn:E; [done |].
  intros _. by apply (containsCharsFrom_false _ _ _ E).
Qed.
End Header.

(** ** The editor session *)


Section Editor.
Implicit Types ls : list string.
Implicit Types w : World.

Lemma nl_free_quitCmd : nl_free quitCmd.
Proof. reflexivity. Qed.

Lemma cin_getline_line l rest str w :
  nl_free l → cin w = stream_of (l +:+ endl +:+ rest) →
  cin_getline str w = Ok (l, set_cin (stream_of rest) w).
Proof.
  intros Hl Hw. unfold cin_getline. by rewrite Hw, getline_line.
Qed.

(** The last line of the input, with no line feed after it: it is extracted
    and [eofbit] is set. *)
Lemma cin_getline_last l str w :
  nl_free l → l ≠ "" → cin w = stream_of l →
  cin_getline str w
  = Ok (l, set_cin {| buf := ""; eofbit := true; failbit := false |} w).
Proof.
  intros Hl Hne Hw. unfold cin_getline.
  by rewrite Hw, getline_good, take_line_whole.
Qed.

Lemma length_unlines ls : length ls ≤ String.length (unlines ls).
Proof.
  induction ls as [|l ls IH]; [done |]. simpl.
  rewrite !length_app. simpl. lia.
Qed.

Lemma set_cin_same w : set_cin (cin w) w = w.
Proof. by destruct w. Qed.

Lemma last_cons ls (l d : string) : List.last (l :: ls) d = List.last ls l.
Proof.
  revert l d. induction ls as [|x ls IH]; intros l d; [done |].
  change (List.last (l :: x :: ls) d) with (List.last (x :: ls) d).
  by rewrite !IH.
Qed.

(** The loop on lines none of which is the sentinel: one pass for each, and
    each is appended with its line feed. *)
Lemma editLoop_prefix ls :
  Forall nl_free ls → Forall (λ l, l ≠ quitCmd) ls →
  ∀ fuel line acc tail w,
    cin w = stream_of (unlines ls +:+ tail) →
    editLoop (length ls + fuel) line acc w
    = editLoop fuel (List.last ls line) (acc +:+ unlines ls)
        (set_cin (stream_of tail) w).
Proof.
  induction ls as [|l ls IH]; intros Hnl Hq fuel line acc tail w Hw.
  - simpl in *. rewrite app_nil_l in Hw.
    by rewrite app_nil_r, <- Hw, set_cin_same.
  - inversion Hnl as [|? ? Hl Hnl']; inversion Hq as [|? ? Hlq Hq']; subst.
    simpl in Hw. rewrite !app_assoc in Hw.
    cbn [length Nat.add editLoop]. run.
    rewrite (cin_getline_line l _ _ _ Hl Hw). cbn beta iota.
    apply String.eqb_neq in Hlq. rewrite Hlq.
    rewrite (IH Hnl' Hq' fuel l _ tail) by done.
    cbn [unlines]. by rewrite !app_assoc, last_cons.
Qed.

(** Once [cin] is not good the loop never leaves. *)
Lemma editLoop_bad fuel line acc w :
  good (cin w) = false → line ≠ quitCmd → editLoop fuel line acc w = Hang.
Proof.
  revert line acc w. induction fuel as [|fuel IH]; intros line acc w Hg Hl;
    [done |].
  simpl. run. unfold cin_getline, getline. rewrite Hg. cbn beta iota.
  apply String.eqb_neq in Hl as Hl'. rewrite Hl'.
  apply IH; [| done]. unfold good. simpl. apply andb_false_r.
Qed.

(** With more fuel than characters left in [cin] the outcome of the loop is
    the same, whether a result or [Hang]: the fuel that [editSession] gives
    it is enough. *)
Lemma editLoop_fuel f1 f2 line acc w :
  String.length (buf (cin w)) < f1 → String.length (buf (cin w)) < f2 →
  editLoop f1 line acc w = editLoop f2 line acc w.
Proof.
  revert f2 line acc w.
  induction f1 as [|f1 IH]; intros [|f2] line acc w H1 H2; try lia.
  simpl. run. unfold cin_getline, getline.
  destruct (good (cin w)) eqn:Hg.
  - destruct (buf (cin w)) as [|c b] eqn:Hb.
    + simpl. rewrite !editLoop_bad; done.
    + pose proof (take_line_shorter (String c b)) as Hlen.
      destruct (take_line (String c b)) as [[l rest] e]. simpl in *.
      destruct (String.eqb l quitCmd); [done |].
      apply IH; simpl; lia.
  - cbn beta iota. destruct (String.eqb_spec line quitCmd) as [-> | Hne];
      [done |].
    rewrite !editLoop_bad; try done; unfold good; simpl; apply andb_false_r.
Qed.

Lemma editSession_fuel fuel w :
  String.length (buf (cin w)) < fuel →
  editSession w = editLoop fuel "" "" w.
Proof. intros H. unfold editSession. apply editLoop_fuel; lia. Qed.

(** The session on input that starts with [ls]: what is left to do after
    them, with at least one pass of fuel. *)
Lemma editSession_prefix ls tail w :
  Forall nl_free ls → Forall (λ l, l ≠ quitCmd) ls →
  cin w = stream_of (unlines ls +:+ tail) →
  ∃ fuel,
    editSession w
    = editLoop (S fuel) (List.last ls "") (unlines ls)
        (set_cin (stream_of tail) w).
Proof.
  intros Hnl Hq Hw. unfold editSession.
  exists (String.length (buf (cin w)) - length ls).
  replace (S (String.length (buf (cin w))))
    with (length ls + S (String.length (buf (cin w)) - length ls)).
  - by rewrite (editLoop_prefix ls Hnl Hq _ _ _ _ _ Hw), app_nil_l.
  - rewrite Hw. simpl. rewrite length_app. pose proof (length_unlines ls). lia.
Qed.

(** Lines, then the sentinel on a line of its own. *)
Lemma editSession_lines ls rest w :
  Forall nl_free ls → Forall (λ l, l ≠ quitCmd) ls →
  cin w = stream_of (unlines ls +:+ quitCmd +:+ endl +:+ rest) →
  editSession w = Ok (unlines ls, set_cin (stream_of rest) w).
Proof.
  intros Hnl Hq Hw.
  destruct (editSession_prefix ls _ w Hnl Hq Hw) as [fuel ->].
  simpl. run. by rewrite (cin_getline_line quitCmd rest).
Qed.

(** Lines, then the sentinel as the last thing in the input. *)
Lemma editSession_lines_eof ls w :
  Forall nl_free ls → Forall (λ l, l ≠ quitCmd) ls →
  cin w = stream_of (unlines ls +:+ quitCmd) →
  editSession w
  = Ok (unlines ls,
        set_cin {| buf := ""; eofbit := true; failbit := false |} w).
Proof.
  intros Hnl Hq Hw.
  destruct (editSession_prefix ls _ w Hnl Hq Hw) as [fuel ->].
  simpl. run. by rewrite (cin_getline_last quitCmd).
Qed.

(** Input that ends before any sentinel line: the session never ends. *)
Lemma editSession_no_sentinel ls last w :
  Forall nl_free ls → Forall (λ l, l ≠ quitCmd) ls →
  nl_free last → last ≠ quitCmd →
  cin w = stream_of (unlines ls +:+ last) →
  editSession w = Hang.
Proof.
  intros Hnl Hq Hlast Hlq Hw.
  destruct (editSession_prefix ls _ w Hnl Hq Hw) as [fuel ->].
  simpl. run. destruct last as [|c last].
  - unfold cin_getline. simpl. by apply editLoop_bad.
  - rewrite (cin_getline_last (String c last)) by done.
    cbn beta iota. apply String.eqb_neq in Hlq as Hlq'. rewrite Hlq'.
    by apply editLoop_bad.
Qed.

(** The loop changes nothing but [cin]. *)
Lemma editLoop_frame fuel line acc w r w' :
  editLoop fuel line acc w = Ok (r, w') →
  disk w' = disk w ∧ cout w' = cout w ∧ localtime w' = localtime w.
Proof.
  revert line acc w. induction fuel as [|fuel IH]; intros line acc w;
    [done |].
  simpl. run. unfold cin_getline.
  destruct (getline (cin w) line) as [[ok l] ins].
  destruct (String.eqb l quitCmd); [by intros [= <- <-] |].
  intros H. by apply IH in H.
Qed.
End Editor.

(** ** Loading and opening a note *)

Section LoadOpen.
Implicit Types w : World.
Implicit Types title stamp body head : string.

Lemma size_endl2 : size endl2 = 2%N.
Proof. reflexivity. Qed.

Lemma npos_modulus : (npos + 1 = size_t_modulus)%N.
Proof. reflexivity. Qed.

Lemma headerLine_line head rest :
  nl_free head → headerLine (head +:+ endl +:+ rest) = head.
Proof. intros H. unfold headerLine. by rewrite getline_line. Qed.

(** [loadedNote] reads the header line, then the time stamp from it. *)
Lemma loadedNote_headerLine title mode file :
  ∃ loaded,
    loadedNote title mode file =
    match headerTimestamp (headerLine file) with
    | Ok stamp =>
        Ok (mkNote title stamp (headerLine file +:+ endl +:+ loaded))
    | Throw e => Throw e
    | Hang => Hang
    end ∧ (mode = false → loaded = endl).
Proof.
  unfold loadedNote, headerLine.
  destruct (getline (stream_of file) "") as [[ok head] infile]. simpl.
  destruct mode; eexists; (split; [reflexivity |]); done.
Qed.

Lemma loadedNote_header title mode head rest stamp :
  nl_free head → headerTimestamp head = Ok stamp →
  loadedNote title mode (head +:+ endl +:+ rest)
  = Ok (mkNote title stamp
          (head +:+ endl +:+
           (if mode
            then readLines (S (String.length rest)) (stream_of rest) "" ""
            else endl))).
Proof.
  intros Hh Hs. unfold loadedNote. by rewrite getline_line, Hs.
Qed.

(** Append mode on a file in the format of a note: the note holds the file
    as it is. *)
Lemma loadedNote_append title hname stamp body :
  let file := hname +:+ headSep +:+ stamp +:+ endl2 +:+ body in
  nl_free hname → nl_free stamp →
  find (hname +:+ headSep +:+ stamp) headSep = size hname →
  newline_terminated body = true →
  (size file < npos)%N →
  loadedNote title true file = Ok (mkNote title stamp file).
Proof.
  intros file Hn Hs Hf Hb Hsz. subst file.
  assert (nl_free (hname +:+ headSep +:+ stamp)) as Hh
    by (repeat apply nl_free_app; done).
  replace (hname +:+ headSep +:+ stamp +:+ endl2 +:+ body)
    with ((hname +:+ headSep +:+ stamp) +:+ endl +:+ (endl +:+ body)) in *
    by (unfold endl2; by rewrite !app_assoc).
  rewrite (loadedNote_header title true _ _ stamp Hh).
  - rewrite readLines_terminated, app_nil_l; [done | | lia].
    unfold endl. rewrite app_cons, app_nil_l. simpl.
    destruct body; [apply Ascii.eqb_refl | done].
  - apply headerTimestamp_first; [done |].
    rewrite size_app in Hsz. pose proof npos_modulus. lia.
Qed.

(** [openNote] on a note whose content has the header block [h], the
    blank line and the user content [user]. *)
Lemma openNote_run note h user w :
  content note = h +:+ endl2 +:+ user → nl_free h →
  (size (content note) < size_t_modulus)%N →
  openNote note w =
  (newContent ← editSession;
   saveNote (setContent (name note +:+ headSep +:+ timestamp note +:+ endl2
                         +:+ user +:+ newContent) note))
    (put user
       (put ("Type !quit on a new line to exit." +:+ endl2)
          (put (name note +:+ headSep +:+ timestamp note +:+ endl) w))).
Proof.
  intros Hc Hh Hsz. unfold openNote, getContent, getName, getTimestamp.
  rewrite Hc in *. rewrite find_endl2 by done.
  rewrite !size_app, size_endl2 in Hsz.
  rewrite size_add_small by lia.
  replace (size h + 2)%N with (size (h +:+ endl2))
    by (by rewrite size_app, size_endl2).
  rewrite <- (app_assoc h endl2 user), substr_app. run.
  destruct (editSession _) as [[newContent w'] | |]; [| done | done].
  by rewrite !app_assoc.
Qed.

(** A whole editing session on such a note, with the typed lines [ls]. *)
Lemma openNote_session note h user ls rest d w :
  content note = h +:+ endl2 +:+ user → nl_free h →
  (size (content note) < size_t_modulus)%N →
  Forall nl_free ls → Forall (λ l, l ≠ quitCmd) ls →
  cin w = stream_of (unlines ls +:+ quitCmd +:+ endl +:+ rest) →
  disk w = Some d →
  ∃ w', openNote note w = Ok (tt, w') ∧
        disk w' = Some (<[fileName (name note) :=
                            name note +:+ headSep +:+ timestamp note +:+ endl2
                            +:+ user +:+ unlines ls]> d) ∧
        cin w' = stream_of rest.
Proof.
  intros Hc Hh Hsz Hnl Hq Hw Hd.
  rewrite (openNote_run note h user w Hc Hh Hsz). run.
  rewrite (editSession_lines ls rest) by done.
  unfold saveNote. simpl. rewrite Hd. by eexists.
Qed.
End LoadOpen.

(** ** Routing of command lines *)

Section Routing.
Implicit Types title cmd : string.

Lemma prefix_nil s : String.prefix "" s = true.
Proof. by destruct s. Qed.

Lemma extractArg_prefixed pre title :
  takesTitle pre → extractArg (pre +:+ title) = title.
Proof.
  intros [-> | [-> | [-> | ->]]]; unfold extractArg, find;
    rewrite !app_cons, app_nil_l;
    rewrite !find_from_next by (by apply prefix_cons_ne);
    rewrite find_from_here by (rewrite prefix_cons_eq; apply prefix_nil);
    reflexivity.
Qed.

Lemma countWords_prefixed pre title :
  takesTitle pre → countWords (pre +:+ title) = S (countWords title).
Proof. intros [-> | [-> | [-> | ->]]]; reflexivity. Qed.


Lemma route_app title :
  countWords title = 1 → validateInput title = true →
  route ("app " +:+ title) = ALoad title true.
Proof.
  intros Hc Hv. unfold route.
  rewrite (extractArg_prefixed "app "), (countWords_prefixed "app "), Hc, Hv
    by (unfold takesTitle; tauto).
  reflexivity.
Qed.

Lemma route_ow title :
  countWords title = 1 → validateInput title = true →
  route ("ow " +:+ title) = ALoad title false.
Proof.
  intros Hc Hv. unfold route.
  rewrite (extractArg_prefixed "ow "), (countWords_prefixed "ow "), Hc, Hv
    by (unfold takesTitle; tauto).
  reflexivity.
Qed.

Lemma route_del title :
  countWords title = 1 → validateInput title = true →
  route ("del " +:+ title) = ADelete title.
Proof.
  intros Hc Hv. unfold route.
  rewrite (extractArg_prefixed "del "), (countWords_prefixed "del "), Hc, Hv
    by (unfold takesTitle; tauto).
  reflexivity.
Qed.
End Routing.


(** * The claims *)

Section AppendOverwrite.
Implicit Types w : World.
Implicit Types d : gmap string string.
Implicit Types title stamp body tail X Y rest : string.

Lemma sentinel_free_session X rest w :
  sentinel_free X →
  cin w = stream_of (X +:+ endl +:+ quitCmd +:+ endl +:+ rest) →
  cin w = stream_of (unlines (lines_of X) +:+ quitCmd +:+ endl +:+ rest).
Proof. intros _ ->. by rewrite unlines_lines_of, !app_assoc. Qed.

Lemma header_nl_free title stamp :
  nl_free title → nl_free stamp → nl_free (title +:+ headSep +:+ stamp).
Proof. intros. by repeat apply nl_free_app. Qed.

(** C1 (as amended).  For a stored note made of the header line
    [title | stamp], a blank line and a body that is empty or ends with a
    line feed, the command [app title] followed by the typed text [X] and
    the sentinel stores the prior content followed by [X] and a line feed;
    the time stamp in the stored header is the one that was there. *)
Theorem append_extends_note w d title stamp body X rest :
  let prior := title +:+ headSep +:+ stamp +:+ endl2 +:+ body in
  disk w = Some d → d !! fileName title = Some prior →
  countWords title = 1 → validateInput title = true →
  nl_free title → nl_free stamp →
  newline_terminated body = true →
  (size prior < npos)%N →
  sentinel_free X →
  cin w = stream_of (X +:+ endl +:+ quitCmd +:+ endl +:+ rest) →
  ∃ w', dispatch ("app " +:+ title) w = Ok (Continue, w') ∧
        disk w' = Some (<[fileName title := prior +:+ X +:+ endl]> d) ∧
        headerTimestamp (headerLine prior) = Ok stamp ∧
        headerTimestamp (headerLine (prior +:+ X +:+ endl)) = Ok stamp.
Proof.
  intros prior Hd Hfile Hc Hv Ht Hs Hb Hsz HX Hcin. subst prior.
  pose proof (validateInput_no_bar _ Hv) as Hbar.
  pose proof (header_nl_free _ _ Ht Hs) as Hh.
  pose proof npos_modulus as Hnpos.
  set (prior := title +:+ headSep +:+ stamp +:+ endl2 +:+ body) in *.
  assert (prior = (title +:+ headSep +:+ stamp) +:+ endl +:+ endl +:+ body)
    as Hprior by (subst prior; unfold endl2; by rewrite !app_assoc).
  assert (headerTimestamp (title +:+ headSep +:+ stamp) = Ok stamp) as Hts.
  { apply headerTimestamp_header; [done |].
    rewrite Hprior, size_app in Hsz. lia. }
  unfold dispatch. rewrite route_app by done. simpl. run.
  unfold loadNote. rewrite Hd. simpl. rewrite Hfile. run.
  subst prior.
  rewrite (loadedNote_append title title stamp body)
    by (done || by apply find_headSep).
  set (prior := title +:+ headSep +:+ stamp +:+ endl2 +:+ body) in *.
  destruct (openNote_session (mkNote title stamp prior)
              (title +:+ headSep +:+ stamp) body (lines_of X) rest d w)
    as (w' & Hrun & Hdisk & _);
    [by subst prior; rewrite !app_assoc | done | simpl; lia
    | apply lines_of_nl_free | done | by apply sentinel_free_session | done |].
  rewrite Hrun. exists w'. split; [done |]. simpl in Hdisk.
  rewrite unlines_lines_of in Hdisk. split; [| split].
  - rewrite Hdisk. subst prior. by rewrite !app_assoc.
  - by rewrite Hprior, headerLine_line.
  - by rewrite Hprior, (app_assoc (title +:+ headSep +:+ stamp)),
         (app_assoc endl), headerLine_line.
Qed.

(** C2.  For a stored note whose first line is the header [title | stamp],
    the command [ow title] followed by the typed text [Y] and the sentinel
    stores the same header line, a blank line and [Y] with a line feed: the
    prior body is gone, the header line and its time stamp are the ones that
    were there. *)
Theorem overwrite_replaces_body w d title stamp tail Y rest :
  let prior := title +:+ headSep +:+ stamp +:+ endl +:+ tail in
  let new := headerLine prior +:+ endl2 +:+ Y +:+ endl in
  disk w = Some d → d !! fileName title = Some prior →
  countWords title = 1 → validateInput title = true →
  nl_free title → nl_free stamp →
  (size prior < npos)%N →
  sentinel_free Y →
  cin w = stream_of (Y +:+ endl +:+ quitCmd +:+ endl +:+ rest) →
  ∃ w', dispatch ("ow " +:+ title) w = Ok (Continue, w') ∧
        disk w' = Some (<[fileName title := new]> d) ∧
        headerLine new = headerLine prior ∧
        headerLine prior = title +:+ headSep +:+ stamp ∧
        headerTimestamp (headerLine new) = Ok stamp.
Proof.
  intros prior new Hd Hfile Hc Hv Ht Hs Hsz HY Hcin.
  pose proof (validateInput_no_bar _ Hv) as Hbar.
  pose proof (header_nl_free _ _ Ht Hs) as Hh.
  pose proof npos_modulus as Hnpos.
  assert (prior = (title +:+ headSep +:+ stamp) +:+ endl +:+ tail) as Hprior
    by (subst prior; by rewrite !app_assoc).
  assert (size (title +:+ headSep +:+ stamp) + 1 < npos)%N as Hsz'.
  { rewrite Hprior, !size_app in Hsz. change (size endl) with 1%N in Hsz.
    rewrite !size_app. lia. }
  assert (headerLine prior = title +:+ headSep +:+ stamp) as Hline
    by (rewrite Hprior; by apply headerLine_line).
  assert (headerTimestamp (title +:+ headSep +:+ stamp) = Ok stamp) as Hts
    by (apply headerTimestamp_header; [done | lia]).
  unfold dispatch. rewrite route_ow by done. simpl. run.
  unfold loadNote. rewrite Hd. simpl. rewrite Hfile. run.
  rewrite Hprior, (loadedNote_header title false _ tail stamp Hh Hts).
  destruct (openNote_session
              (mkNote title stamp
                 ((title +:+ headSep +:+ stamp) +:+ endl +:+ endl))
              (title +:+ headSep +:+ stamp) "" (lines_of Y) rest d w)
    as (w' & Hrun & Hdisk & _);
    [ by unfold endl2; rewrite app_nil_r | done
    | simpl; rewrite !size_app in *; change (size endl) with 1%N; lia
    | apply lines_of_nl_free | done | by apply sentinel_free_session | done |].
  rewrite Hrun. exists w'. split; [done |]. simpl in Hdisk.
  rewrite unlines_lines_of, app_nil_l in Hdisk.
  subst new. rewrite Hline.
  assert (headerLine ((title +:+ headSep +:+ stamp) +:+ endl2 +:+ Y +:+ endl)
          = title +:+ headSep +:+ stamp) as Hnew.
  { unfold endl2. rewrite (app_assoc endl). by apply headerLine_line. }
  split; [| split; [| split]].
  - rewrite Hdisk. by rewrite !app_assoc.
  - rewrite Hnew. symmetry. by apply headerLine_line.
  - by apply headerLine_line.
  - by rewrite Hnew.
Qed.
End AppendOverwrite.

Section LoadAndCreate.
Implicit Types w : World.
Implicit Types d : gmap string string.
Implicit Types n : Note.

Lemma loadNote_opens w title mode file n :
  stored w (fileName title) = Some file →
  loadedNote title mode file = Ok n →
  loadNote title mode w = openNote n w.
Proof.
  unfold stored, loadNote. intros -> Hn. run. by rewrite Hn.
Qed.

(** C3.  A note whose content is the header line [name | timestamp], a
    blank line and a body of lines each ended by a line feed is written by
    [saveNote] to its file, and [loadNote] in append mode builds from that
    file the very same note: name, time stamp and content, and the body
    that [openNote] separates from it is the saved body. *)
Theorem save_load_roundtrip w d n body :
  disk w = Some d →
  content n = name n +:+ headSep +:+ timestamp n +:+ endl2 +:+ body →
  validateInput (name n) = true →
  nl_free (name n) → nl_free (timestamp n) →
  newline_terminated body = true →
  (size (content n) < npos)%N →
  ∃ w', saveNote n w = Ok (tt, w') ∧
        stored w' (fileName (name n)) = Some (content n) ∧
        loadedNote (name n) true (content n) = Ok n ∧
        loadNote (name n) true w' = openNote n w' ∧
        substr (content n) (size_add (find (content n) endl2) 2) = Ok body.
Proof.
  intros Hd Hc Hv Hn Ht Hb Hsz. destruct n as [nm ts ct]. simpl in *.
  subst ct. pose proof npos_modulus as Hnpos.
  assert (loadedNote nm true (nm +:+ headSep +:+ ts +:+ endl2 +:+ body)
          = Ok (mkNote nm ts (nm +:+ headSep +:+ ts +:+ endl2 +:+ body)))
    as Hload.
  { apply loadedNote_append; try done.
    by apply find_headSep, validateInput_no_bar. }
  eexists. split; [| split; [| split; [| split]]].
  - unfold saveNote. rewrite Hd. reflexivity.
  - unfold stored. simpl. by rewrite lookup_insert_eq.
  - done.
  - eapply loadNote_opens; [| exact Hload].
    unfold stored. simpl. by rewrite lookup_insert_eq.
  - rewrite <- !(app_assoc nm), <- app_assoc.
    rewrite find_endl2 by (rewrite app_assoc; by apply header_nl_free).
    rewrite <- !(app_assoc nm), <- app_assoc, !size_app in Hsz.
    rewrite size_endl2 in Hsz.
    rewrite size_add_small by (rewrite !size_app; lia).
    replace (size ((nm +:+ headSep) +:+ ts) + 2)%N
      with (size (((nm +:+ headSep) +:+ ts) +:+ endl2))
      by (by rewrite (size_app _ endl2), size_endl2).
    rewrite <- (app_assoc _ endl2 body). apply substr_app.
Qed.

(** C7 (as amended).  For a file that [loadNote] opens and whose header
    line is [hname | stamp], with this separator the first one in the line,
    the note handed to the editor takes its time stamp from the header, the
    text after the separator, and its name from the title argument of the
    command; the name part of the header is not read. *)
Theorem loadNote_name_and_timestamp w title mode file hname stamp :
  stored w (fileName title) = Some file →
  headerLine file = hname +:+ headSep +:+ stamp →
  find (headerLine file) headSep = size hname →
  (size (headerLine file) < npos)%N →
  ∃ n, loadedNote title mode file = Ok n ∧
       loadNote title mode w = openNote n w ∧
       name n = title ∧ timestamp n = stamp.
Proof.
  intros Hst Hline Hfind Hsz. pose proof npos_modulus as Hnpos.
  destruct (loadedNote_headerLine title mode file) as (loaded & Hn & _).
  rewrite Hline in *.
  rewrite headerTimestamp_first in Hn by (done || lia).
  eexists. split; [exact Hn |]. split; [| done].
  by eapply loadNote_opens.
Qed.

(** C5.  [createNote] on a title whose file exists prints the error and
    changes nothing else: the directory with every file in it, and the
    pending input, are as they were. *)
Theorem createNote_existing w d title file :
  disk w = Some d → d !! fileName title = Some file →
  ∃ w', createNote title w = Ok (tt, w') ∧
        disk w' = disk w ∧ cin w' = cin w ∧
        cout w' = cout w +:+ "ERROR: '" +:+ title +:+ "' already exists."
                  +:+ endl2.
Proof.
  intros Hd Hf. unfold createNote, fs_exists. rewrite Hd, Hf.
  rewrite bool_decide_eq_true_2 by done. by eexists.
Qed.
End LoadAndCreate.

Section Validation.
Implicit Types w : World.
Implicit Types t cmd : string.

Lemma occurs_invalidChars c : occurs c invalidChars = true ↔ reserved c.
Proof.
  unfold invalidChars, reserved. simpl. rewrite !orb_true_iff.
  rewrite !Ascii.eqb_eq. intuition congruence.
Qed.

Lemma containsCharsFrom_true text chars :
  containsCharsFrom text chars = true ↔
  ∃ c, occurs c chars = true ∧ occurs c text = true.
Proof.
  induction text as [|d t IH]; simpl.
  - split; [done | by intros (c & _ & ?)].
  - destruct (occurs d chars) eqn:Hd.
    + split; [intros _ | done]. exists d. by rewrite Ascii.eqb_refl.
    + rewrite IH. split; intros (c & Hc & Hin); exists c; (split; [done |]).
      * by rewrite Hin, orb_true_r.
      * apply orb_true_iff in Hin as [->%Ascii.eqb_eq | Hin]; [| done].
        congruence.
Qed.

Lemma route_two_words_invalid cmd :
  countWords cmd = 2 → validateInput (extractArg cmd) = false →
  route cmd = AInvalid (extractArg cmd).
Proof.
  intros Hc Hv. unfold route.
  destruct (String.eqb_spec cmd "exit") as [-> | _]; [discriminate Hc |].
  destruct (String.eqb_spec cmd "help") as [-> | _]; [discriminate Hc |].
  destruct (String.eqb_spec cmd "cls") as [-> | _]; [discriminate Hc |].
  destruct (String.eqb_spec cmd "list") as [-> | _]; [discriminate Hc |].
  by rewrite Hc, Hv.
Qed.

(** C6.  [validateInput] rejects exactly the titles that hold a reserved
    character or have 255 characters or more; and a command line of two
    words whose argument it rejects gets the invalid-filename message and
    nothing else: no note operation runs, the world is otherwise the same. *)
Theorem validateInput_gate t cmd w :
  (validateInput t = false ↔
     (∃ c, reserved c ∧ occurs c t = true) ∨ 255 ≤ String.length t) ∧
  (countWords cmd = 2 → validateInput (extractArg cmd) = false →
   route cmd = AInvalid (extractArg cmd) ∧
   dispatch cmd w =
     Ok (Continue,
         put ("'" +:+ extractArg cmd +:+ "' is not a valid filename."
              +:+ endl2) w)).
Proof.
  split.
  - unfold validateInput.
    destruct (containsCharsFrom t invalidChars) eqn:Hchars.
    + split; [intros _ | done]. left.
      apply containsCharsFrom_true in Hchars as (c & Hc & Hin).
      exists c. by rewrite <- occurs_invalidChars.
    + destruct (N.leb_spec 255 (size t)) as [Hlen | Hlen]; unfold size in Hlen.
      * split; [intros _ | done]. right. lia.
      * split; [done |]. intros [(c & Hc & Hin) | Hge]; [| lia].
        apply occurs_invalidChars in Hc.
        assert (containsCharsFrom t invalidChars = true) as Hcontra
          by (apply containsCharsFrom_true; eauto).
        congruence.
  - intros Hc Hv. unfold dispatch.
    by rewrite (route_two_words_invalid cmd Hc Hv).
Qed.
End Validation.

Section Words.
Implicit Types w : World.
Implicit Types t cmd pre title : string.

Lemma take_drop n s : take n s +:+ drop n s = s.
Proof.
  revert s. induction n as [|n IH]; intros [|c s]; try done.
  simpl. by rewrite app_cons, IH.
Qed.

Lemma compare0_prefix s n pat :
  compare0 s n pat = true → s = pat +:+ drop n s.
Proof.
  unfold compare0. intros <-%String.eqb_eq. by rewrite take_drop.
Qed.

(** A line of three words or more that starts with one of the four
    prefixes falls through to the missing-argument branch. *)
Lemma route_three_words pre title :
  takesTitle pre → 3 ≤ countWords (pre +:+ title) →
  route (pre +:+ title) = AMissing.
Proof.
  intros Hpre Hc. unfold route.
  assert (Nat.eqb (countWords (pre +:+ title)) 2 = false) as ->
    by (apply Nat.eqb_neq; lia).
  rewrite !andb_false_r.
  destruct Hpre as [-> | [-> | [-> | ->]]]; reflexivity.
Qed.

(** A title reaches a note operation only from a line of two words: one
    of the four prefixes, then the title, which is itself one word and
    passes [validateInput]. *)
Lemma routedTitle_one_word cmd t :
  routedTitle (route cmd) = Some t →
  countWords t = 1 ∧ validateInput t = true ∧
  ∃ pre, takesTitle pre ∧ cmd = pre +:+ t.
Proof.
  unfold route.
  destruct (String.eqb cmd "exit"); [done |].
  destruct (String.eqb cmd "help"); [done |].
  destruct (String.eqb cmd "cls"); [done |].
  destruct (String.eqb cmd "list"); [done |].
  destruct (Nat.eqb_spec (countWords cmd) 2) as [Hc | _]; simpl;
    [| rewrite !andb_false_r; by destruct (_ || _)].
  destruct (validateInput (extractArg cmd)) eqn:Hv; [simpl | done].
  rewrite !andb_true_r.
  assert (∀ pre, takesTitle pre →
            compare0 cmd (String.length pre) pre = true →
            extractArg cmd = t →
            countWords t = 1 ∧ validateInput t = true ∧
            ∃ pre, takesTitle pre ∧ cmd = pre +:+ t) as Hcase.
  { intros pre Hpre Hcmp <-. apply compare0_prefix in Hcmp.
    rewrite Hcmp in Hc, Hv |- *.
    rewrite (extractArg_prefixed pre) in * by done.
    rewrite (countWords_prefixed pre) in Hc by done.
    split; [lia |]. split; [done |]. exists pre. split; [done |].
    by rewrite <- Hcmp at 1. }
  destruct (compare0 cmd 4 "del ") eqn:Hdel;
    [intros [= Ht]; apply (Hcase "del "); unfold takesTitle; tauto |].
  destruct (compare0 cmd 4 "new ") eqn:Hnew;
    [intros [= Ht]; apply (Hcase "new "); unfold takesTitle; tauto |].
  destruct (compare0 cmd 4 "app ") eqn:Happ;
    [intros [= Ht]; apply (Hcase "app "); unfold takesTitle; tauto |].
  destruct (compare0 cmd 3 "ow ") eqn:How;
    [intros [= Ht]; apply (Hcase "ow "); unfold takesTitle; tauto |].
  by destruct (_ || _).
Qed.

(** C10 (as amended).  A line that starts with one of the four prefixes
    and has three words or more runs no note operation and gets the
    missing-argument message.  So every title that reaches create, load or
    delete is a single word; white space before or after that word is not
    excluded. *)
Theorem spaced_title_not_dispatched pre title cmd t w :
  (takesTitle pre → 3 ≤ countWords (pre +:+ title) →
   route (pre +:+ title) = AMissing ∧
   dispatch (pre +:+ title) w = Ok (Continue, put missingArgText w)) ∧
  (routedTitle (route cmd) = Some t → countWords t = 1).
Proof.
  split.
  - intros Hpre Hc. unfold dispatch. by rewrite route_three_words.
  - intros Hr. by apply routedTitle_one_word in Hr as [? _].
Qed.
End Words.

Section Session.
Implicit Types w : World.
Implicit Types ls : list string.

(** C9.  The editor session extracts lines from [cin] one at a time; every
    line that is not exactly the sentinel is appended, followed by a line
    feed, to the new content; the session ends at the first line that is
    the sentinel, which is consumed and not stored, be it followed by a line
    feed or by the end of the input; and on input that ends before any
    sentinel line the session never ends. *)
Theorem editSession_until_quit ls w :
  Forall nl_free ls → Forall (λ l, l ≠ quitCmd) ls →
  (∀ rest,
     cin w = stream_of (unlines ls +:+ quitCmd +:+ endl +:+ rest) →
     editSession w = Ok (unlines ls, set_cin (stream_of rest) w)) ∧
  (cin w = stream_of (unlines ls +:+ quitCmd) →
   editSession w
   = Ok (unlines ls,
         set_cin {| buf := ""; eofbit := true; failbit := false |} w)) ∧
  (∀ last,
     nl_free last → last ≠ quitCmd →
     cin w = stream_of (unlines ls +:+ last) →
     editSession w = Hang).
Proof.
  intros Hnl Hq. split; [| split].
  - intros rest Hw. by apply editSession_lines.
  - intros Hw. by apply editSession_lines_eof.
  - intros last Hl Hlq Hw. by apply (editSession_no_sentinel ls last).
Qed.
End Session.

Section Format.
Implicit Types w : World.
Implicit Types f c title cmd : string.

Lemma nl_free_cons a s : a ≠ nl → nl_free s → nl_free (String a s).
Proof.
  unfold nl_free. intros Ha Hs. simpl. rewrite Hs, orb_false_r.
  apply Ascii.eqb_neq. congruence.
Qed.

Lemma nl_free_dec n : nl_free (dec n).
Proof.
  unfold dec. induction (Nat.to_uint n) as [|u IH|u IH|u IH|u IH|u IH|u IH
                                             |u IH|u IH|u IH|u IH];
    [done | by apply nl_free_cons ..].
Qed.

Lemma nl_free_pad2 n : nl_free (pad2 n).
Proof.
  unfold pad2. destruct (Nat.ltb n 10); [| apply nl_free_dec].
  apply nl_free_app; [done | apply nl_free_dec].
Qed.

(** The time stamp of [getCurrentTime] is one line. *)
Lemma nl_free_put_time t : nl_free (put_time t).
Proof.
  unfold put_time.
  repeat (apply nl_free_app;
          [first [apply nl_free_dec | apply nl_free_pad2 | done] |]).
  done.
Qed.

Lemma nl_free_extractArg cmd : nl_free cmd → nl_free (extractArg cmd).
Proof.
  intros H. unfold extractArg. destruct (negb _); [| done].
  by apply nl_free_drop.
Qed.

Lemma stored_put s w f : stored (put s w) f = stored w f.
Proof. done. Qed.

(** What a pass of the editor can leave in the directory: the files that
    were there, and the note it saved. *)
Lemma openNote_written note w w' :
  openNote note w = Ok (tt, w') →
  ∀ f c, stored w' f = Some c →
         stored w f = Some c ∨
         (f = fileName (name note) ∧
          ∃ body, c = name note +:+ headSep +:+ timestamp note +:+ endl2
                      +:+ body).
Proof.
  unfold openNote. destruct (substr _ _) as [user | |]; [| done | done].
  run. unfold editSession.
  destruct (editLoop _ _ _ _) as [[newContent w1] | |] eqn:Hloop;
    [| done | done].
  apply editLoop_frame in Hloop as (Hdisk & _). simpl in Hdisk.
  unfold saveNote, getName, getContent. simpl. rewrite Hdisk.
  destruct (disk w) as [d |] eqn:Hd; run; intros [= <-] f c;
    unfold stored; simpl; rewrite ?Hdisk, ?Hd; simpl; [| by left].
  rewrite lookup_insert. case_decide as Hf; [| by left].
  intros [= <-]. right. split; [done |]. eexists.
  by rewrite !app_assoc.
Qed.

Lemma createNote_written title w w' :
  nl_free title → createNote title w = Ok (tt, w') →
  ∀ f c, stored w' f = Some c → stored w f = Some c ∨ noteFormat f c.
Proof.
  intros Ht. unfold createNote. destruct (fs_exists title w).
  - run. intros [= <-] f c. rewrite stored_put. by left.
  - run. intros Hopen f c Hst.
    destruct (openNote_written _ _ _ Hopen f c Hst) as [? | [-> [body ->]]];
      [by left | right].
    exists title, (put_time (localtime w)), body. simpl.
    repeat split; try done. apply nl_free_put_time.
Qed.

Lemma loadNote_written title mode w w' :
  nl_free title → loadNote title mode w = Ok (tt, w') →
  ∀ f c, stored w' f = Some c → stored w f = Some c ∨ noteFormat f c.
Proof.
  intros Ht. unfold loadNote.
  destruct (disk w ≫= _) as [file |]; run;
    [| intros [= <-] f c; rewrite stored_put; by left].
  destruct (loadedNote_headerLine title mode file) as (loaded & -> & _).
  destruct (headerTimestamp (headerLine file)) as [stamp | |] eqn:Hstamp;
    [| done | done].
  intros Hopen f c Hst.
  destruct (openNote_written _ _ _ Hopen f c Hst) as [? | [-> [body ->]]];
    [by left | right].
  exists title, stamp, body. simpl. repeat split; try done.
  apply (headerTimestamp_nl_free (headerLine file)); [| done].
  by apply (getline_nl_free (stream_of file) "").
Qed.

Lemma deleteNote_written title w w' :
  deleteNote title w = Ok (tt, w') →
  ∀ f c, stored w' f = Some c → stored w f = Some c.
Proof.
  unfold deleteNote. destruct (disk w) as [d |] eqn:Hd;
    [destruct (bool_decide _) |]; run; intros [= <-] f c;
    unfold stored; simpl; rewrite ?Hd; simpl; try done.
  rewrite lookup_delete. by case_decide.
Qed.

Lemma listNotes_frame w w' :
  listNotes w = Ok (tt, w') → disk w' = disk w.
Proof.
  unfold listNotes. destruct (disk w) as [d |] eqn:Hd; [| done].
  destruct (negb _); [run; by intros [= <-] |].
  destruct ((map_to_list d).*1); run; by intros [= <-].
Qed.

(** Every file that is in the directory after a command line has been
    handled was there before, unchanged, or has the format of a note. *)
Lemma dispatch_written cmd w ctl w' :
  nl_free cmd → dispatch cmd w = Ok (ctl, w') →
  ∀ f c, stored w' f = Some c → stored w f = Some c ∨ noteFormat f c.
Proof.
  intros Hcmd. unfold dispatch.
  assert (∀ t, routedTitle (route cmd) = Some t → nl_free t) as Htitle.
  { intros t (_ & _ & pre & _ & ->)%routedTitle_one_word.
    unfold nl_free in *. rewrite occurs_app in Hcmd.
    by apply orb_false_elim in Hcmd as [_ ?]. }
  destruct (route cmd) as [| | | |arg|arg|arg|arg mode| |]; simpl; run.
  - intros [= <- <-]. by left.
  - intros [= <- <-] f c. rewrite stored_put. by left.
  - intros [= <- <-]. by left.
  - destruct (listNotes w) as [[[] w1] | |] eqn:Hl; [| done | done].
    intros [= <- <-] f c. unfold stored.
    rewrite (listNotes_frame _ _ Hl). by left.
  - intros [= <- <-] f c. rewrite stored_put. by left.
  - destruct (deleteNote arg w) as [[[] w1] | |] eqn:Hdel; [| done | done].
    intros [= <- <-] f c Hst. left. by eapply deleteNote_written.
  - destruct (createNote arg w) as [[[] w1] | |] eqn:Hcr; [| done | done].
    intros [= <- <-]. eapply createNote_written; [| done]. by apply Htitle.
  - destruct (loadNote arg mode w) as [[[] w1] | |] eqn:Hld; [| done | done].
    intros [= <- <-]. eapply loadNote_written; [| done]. by apply Htitle.
  - intros [= <- <-] f c. rewrite stored_put. by left.
  - intros [= <- <-] f c. rewrite stored_put. by left.
Qed.

(** C8.  One pass of the prompt loop, whatever the command line and
    whatever is typed in the editor: every file in the directory afterwards
    either was there before with the same contents or has the format of a
    note (header line [name | timestamp] under the note's own name, blank
    line, body, possibly empty).  So a directory in which every file has
    that format stays such a directory. *)
Theorem note_format_invariant cmd0 w ctl cmd w' :
  nl_free cmd0 → promptIter cmd0 w = Ok ((ctl, cmd), w') →
  nl_free cmd ∧
  (∀ f c, stored w' f = Some c → stored w f = Some c ∨ noteFormat f c) ∧
  ((∀ f c, stored w f = Some c → noteFormat f c) →
   ∀ f c, stored w' f = Some c → noteFormat f c).
Proof.
  intros Hcmd0. unfold promptIter. run. unfold cin_getline.
  pose proof (getline_nl_free (cin (put "$~ " w)) cmd0 Hcmd0) as Hline.
  destruct (getline _ cmd0) as [[ok line] ins]. simpl in Hline.
  destruct (dispatch line _) as [[ctl1 w1] | |] eqn:Hd; [| done | done].
  intros [= <- <- <-].
  pose proof (dispatch_written _ _ _ _ Hline Hd) as Hw.
  split; [done |]. split; [exact Hw |].
  intros Hinv f c Hst. destruct (Hw f c Hst) as [Hold | ?]; [| done].
  by apply Hinv.
Qed.
End Format.

(** ** Decision procedures for the side conditions *)

Section Deciders.
Lemma Forall_nl_free_dec (ls : list string) :
  forallb (λ l, negb (occurs nl l)) ls = true → Forall nl_free ls.
Proof.
  rewrite forallb_forall, Forall_forall. intros H l Hl.
  apply list_elem_of_In, H, negb_true_iff in Hl. exact Hl.
Qed.

Lemma Forall_not_quit_dec (ls : list string) :
  forallb (λ l, negb (String.eqb l quitCmd)) ls = true →
  Forall (λ l, l ≠ quitCmd) ls.
Proof.
  rewrite forallb_forall, Forall_forall. intros H l Hl.
  apply list_elem_of_In, H, negb_true_iff in Hl. by apply String.eqb_neq.
Qed.

Lemma sentinel_free_dec (text : string) :
  forallb (λ l, negb (String.eqb l quitCmd)) (lines_of text) = true →
  sentinel_free text.
Proof. apply Forall_not_quit_dec. Qed.
End Deciders.

(** * The claims on sample inputs *)

Section Samples.
Import Examples.

Lemma listNotes_missing_directory w :
  disk w = None → listNotes w = Throw filesystem_error.
Proof. unfold listNotes. by intros ->. Qed.

(** C4.  With the save directory missing, [list] does not get to report it:
    the construction of the directory iterator throws, nothing catches the
    exception, and the process ends; the prompt loop, however many passes it
    is given, does not reach the next command. *)
Theorem list_missing_directory_throws :
  dispatch "list" (world None "") = Throw filesystem_error ∧
  ∀ passes,
    promptHandler (S passes)
      (world None ("list" +:+ endl +:+ "exit" +:+ endl))
    = Throw filesystem_error.
Proof. split; [reflexivity | intros passes; reflexivity]. Qed.

(** The other operation that can end the process: loading a file whose first
    line has no separator and fewer than two characters, here an empty file,
    where [substr] throws. *)
Lemma load_empty_file_throws :
  dispatch "app foo" (world (Some {[ "foo.cppn" := "" ]}) quitLine)
  = Throw out_of_range.
Proof. vm_compute. reflexivity. Qed.

(** C1, as stated, fails on a note whose body has no final line feed: the
    loader ends the open line before the typed text is added. *)
Lemma append_open_body_counterexample :
  headerLine open_file = "foo" +:+ headSep +:+ stamp0 ∧
  ∃ w', dispatch "app foo"
          (world (Some open_dir) ("x" +:+ endl +:+ quitLine))
        = Ok (Continue, w') ∧
        stored w' "foo.cppn" = Some (open_file +:+ endl +:+ "x" +:+ endl) ∧
        stored w' "foo.cppn" ≠ Some (open_file +:+ "x" +:+ endl).
Proof.
  split; [reflexivity |]. eexists. split; [vm_compute; reflexivity |].
  split; [vm_compute; reflexivity | vm_compute; discriminate].
Qed.

Lemma append_extends_note_witness :
  ∃ w', dispatch ("app " +:+ "foo")
          (world (Some foo_dir) ("more" +:+ endl +:+ quitCmd +:+ endl +:+ ""))
        = Ok (Continue, w') ∧
        disk w' = Some (<[fileName "foo" :=
                           ("foo" +:+ headSep +:+ stamp0 +:+ endl2 +:+
                            "hello" +:+ endl) +:+ "more" +:+ endl]> foo_dir) ∧
        headerTimestamp
          (headerLine ("foo" +:+ headSep +:+ stamp0 +:+ endl2 +:+
                       "hello" +:+ endl)) = Ok stamp0 ∧
        headerTimestamp
          (headerLine (("foo" +:+ headSep +:+ stamp0 +:+ endl2 +:+
                        "hello" +:+ endl) +:+ "more" +:+ endl)) = Ok stamp0.
Proof.
  apply (append_extends_note
           (world (Some foo_dir) ("more" +:+ endl +:+ quitCmd +:+ endl +:+ ""))
           foo_dir "foo" stamp0 ("hello" +:+ endl) "more" "");
    try reflexivity.
  apply sentinel_free_dec. reflexivity.
Defined.

Lemma overwrite_replaces_body_witness :
  ∃ w', dispatch ("ow " +:+ "foo")
          (world (Some foo_dir) ("fresh" +:+ endl +:+ quitCmd +:+ endl +:+ ""))
        = Ok (Continue, w') ∧
        disk w' = Some (<[fileName "foo" :=
                           headerLine foo_file +:+ endl2 +:+ "fresh" +:+ endl]>
                          foo_dir) ∧
        headerLine (headerLine foo_file +:+ endl2 +:+ "fresh" +:+ endl)
        = headerLine foo_file ∧
        headerLine foo_file = "foo" +:+ headSep +:+ stamp0 ∧
        headerTimestamp
          (headerLine (headerLine foo_file +:+ endl2 +:+ "fresh" +:+ endl))
        = Ok stamp0.
Proof.
  apply (overwrite_replaces_body
           (world (Some foo_dir) ("fresh" +:+ endl +:+ quitCmd +:+ endl +:+ ""))
           foo_dir "foo" stamp0 (endl +:+ "hello" +:+ endl) "fresh" "");
    try reflexivity.
  apply sentinel_free_dec. reflexivity.
Defined.
Lemma save_load_roundtrip_witness :
  ∃ w', saveNote (mkNote "foo" stamp0 foo_file) (world (Some ∅) "")
        = Ok (tt, w') ∧
        stored w' (fileName "foo") = Some foo_file ∧
        loadedNote "foo" true foo_file = Ok (mkNote "foo" stamp0 foo_file) ∧
        loadNote "foo" true w' = openNote (mkNote "foo" stamp0 foo_file) w' ∧
        substr foo_file (size_add (find foo_file endl2) 2)
        = Ok ("hello" +:+ endl).
Proof.
  apply (save_load_roundtrip (world (Some ∅) "") ∅
           (mkNote "foo" stamp0 foo_file) ("hello" +:+ endl));
    reflexivity.
Defined.

(** C7, as stated, fails when the file is opened under a title that is not
    the name in its header: the note is named after the title. *)
Lemma loadNote_name_counterexample :
  stored (world (Some bar_dir) "") (fileName "bar") = Some foo_file ∧
  headerLine foo_file = "foo" +:+ headSep +:+ stamp0 ∧
  ∃ n, loadedNote "bar" true foo_file = Ok n ∧
       loadNote "bar" true (world (Some bar_dir) "")
       = openNote n (world (Some bar_dir) "") ∧
       name n = "bar" ∧ name n ≠ "foo".
Proof.
  split; [reflexivity |]. split; [reflexivity |].
  eexists. split; [vm_compute; reflexivity |].
  split; [reflexivity |]. split; [reflexivity | discriminate].
Qed.

Lemma loadNote_name_and_timestamp_witness :
  ∃ n, loadedNote "bar" false foo_file = Ok n ∧
       loadNote "bar" false (world (Some bar_dir) "")
       = openNote n (world (Some bar_dir) "") ∧
       name n = "bar" ∧ timestamp n = stamp0.
Proof.
  apply (loadNote_name_and_timestamp (world (Some bar_dir) "") "bar" false
           foo_file "foo" stamp0); reflexivity.
Defined.

Lemma createNote_existing_witness :
  ∃ w', createNote "foo" (world (Some foo_dir) "") = Ok (tt, w') ∧
        disk w' = disk (world (Some foo_dir) "") ∧
        cin w' = cin (world (Some foo_dir) "") ∧
        cout w' = cout (world (Some foo_dir) "") +:+ "ERROR: '" +:+ "foo"
                  +:+ "' already exists." +:+ endl2.
Proof.
  apply (createNote_existing (world (Some foo_dir) "") foo_dir "foo"
           foo_file); reflexivity.
Defined.

Lemma validateInput_gate_witness :
  route "new a/b" = AInvalid (extractArg "new a/b") ∧
  dispatch "new a/b" (world (Some foo_dir) "") =
    Ok (Continue,
        put ("'" +:+ extractArg "new a/b" +:+ "' is not a valid filename."
             +:+ endl2) (world (Some foo_dir) "")).
Proof.
  apply (proj2 (validateInput_gate "a/b" "new a/b" (world (Some foo_dir) "")));
    reflexivity.
Defined.

Lemma note_format_invariant_witness :
  nl_free "new foo" ∧
  (∀ f c, stored after_new f = Some c →
          stored before_new f = Some c ∨ noteFormat f c) ∧
  ((∀ f c, stored before_new f = Some c → noteFormat f c) →
   ∀ f c, stored after_new f = Some c → noteFormat f c).
Proof.
  apply (note_format_invariant "" before_new Continue "new foo" after_new);
    reflexivity.
Defined.

Lemma editSession_until_quit_witness :
  editSession
    (world None (unlines ["hello"; "!quit "] +:+ quitCmd +:+ endl +:+ "next"))
  = Ok (unlines ["hello"; "!quit "],
        set_cin (stream_of "next")
          (world None
             (unlines ["hello"; "!quit "] +:+ quitCmd +:+ endl +:+ "next")))
  ∧ editSession (world None (unlines ["hello"; "!quit "] +:+ "!qui")) = Hang.
Proof.
  split.
  - apply (proj1 (editSession_until_quit ["hello"; "!quit "] _
                    (Forall_nl_free_dec ["hello"; "!quit "] eq_refl)
                    (Forall_not_quit_dec ["hello"; "!quit "] eq_refl)) "next").
    reflexivity.
  - apply (proj2 (proj2 (editSession_until_quit ["hello"; "!quit "] _
                    (Forall_nl_free_dec ["hello"; "!quit "] eq_refl)
                    (Forall_not_quit_dec ["hello"; "!quit "] eq_refl))) "!qui");
      [reflexivity | discriminate | reflexivity].
Defined.

(** C10, as stated, fails on a second space before the title: the line has
    two words, the title starts with a space, and the note is created. *)
Lemma leading_space_title_counterexample :
  route "new  foo" = ACreate " foo" ∧
  occurs space " foo" = true ∧
  ∃ w', dispatch "new  foo" (world (Some ∅) quitLine) = Ok (Continue, w') ∧
        stored w' (fileName " foo")
        = Some (" foo" +:+ headSep +:+ stamp0 +:+ endl2).
Proof.
  split; [reflexivity |]. split; [reflexivity |].
  eexists. split; vm_compute; reflexivity.
Qed.

Lemma spaced_title_not_dispatched_witness :
  (route ("new " +:+ "a b") = AMissing ∧
   dispatch ("new " +:+ "a b") (world (Some ∅) "")
   = Ok (Continue, put missingArgText (world (Some ∅) ""))) ∧
  countWords "foo" = 1.
Proof.
  destruct (spaced_title_not_dispatched "new " "a b" "new foo" "foo"
              (world (Some ∅) "")) as [Hmissing Hone].
  split.
  - apply Hmissing; [left; reflexivity | vm_compute; constructor].
  - apply Hone. reflexivity.
Defined.
End Samples.

(** * Further properties of the code *)

(** ** Parsing a command line *)

Section Parsing.
Implicit Types s a b w rest cmd : string.
Implicit Types c : ascii.

Lemma countWords_from_space inWord a c b :
  isspace c = true →
  countWords_from inWord (a +:+ String c b)
  = countWords_from inWord a + countWords b.
Proof.
  intros Hc. revert inWord. induction a as [|d a IH]; intros inWord.
  - rewrite app_nil_l. cbn [countWords_from]. by rewrite Hc.
  - rewrite app_cons. cbn [countWords_from].
    destruct (isspace d); rewrite IH; lia.
Qed.

Lemma countWords_from_solid inWord s :
  solid s = true →
  countWords_from inWord s
  = match s with EmptyString => 0 | _ => if inWord then 0 else 1 end.
Proof.
  revert inWord. induction s as [|c s IH]; intros inWord; [done |].
  cbn [solid countWords_from]. intros [Hc Hs]%andb_prop.
  apply negb_true_iff in Hc. rewrite Hc, (IH true Hs). destruct s; lia.
Qed.

(** X1.  [countWords].  White space splits the count: the words of a text
    are those before a white-space character plus those after it; text
    without white space is one word unless it is empty; and the count is
    zero exactly for text that is white space only. *)
Theorem countWords_split a c b s :
  (isspace c = true →
   countWords (a +:+ String c b) = countWords a + countWords b) ∧
  (solid s = true → s ≠ "" → countWords s = 1) ∧
  (countWords s = 0 ↔ blank s = true).
Proof.
  split; [| split].
  - apply countWords_from_space.
  - intros Hs Hne. unfold countWords. rewrite countWords_from_solid by done.
    by destruct s.
  - unfold countWords. induction s as [|d s IH]; [done |].
    cbn [countWords_from blank]. destruct (isspace d); [exact IH |].
    simpl. split; [lia | done].
Qed.

Lemma countWords_split_witness :
  countWords ("del" +:+ String " " "my note") = countWords "del" + countWords "my note"
  ∧ countWords "note" = 1.
Proof.
  split.
  - apply (proj1 (countWords_split "del" " " "my note" "")). reflexivity.
  - apply (proj1 (proj2 (countWords_split "" " " "" "note")));
      [reflexivity | discriminate].
Defined.

Lemma find_from_space_none s i :
  occurs " " s = false → find_from " " s i = None.
Proof.
  revert i. induction s as [|c s IH]; intros i; [done |].
  intros H. cbn [occurs] in H. apply orb_false_elim in H as [Hc Hs].
  rewrite find_from_next by (by apply prefix_cons_ne, eqb_false_ne).
  by apply IH.
Qed.

Lemma find_from_space_first w rest i :
  occurs " " w = false →
  find_from " " (w +:+ String " " rest) i = Some (i + String.length w).
Proof.
  revert i. induction w as [|c w IH]; intros i.
  - intros _. rewrite app_nil_l, find_from_here
      by (rewrite prefix_cons_eq; apply prefix_nil).
    f_equal. simpl. lia.
  - intros H. cbn [occurs] in H. apply orb_false_elim in H as [Hc Hw].
    rewrite app_cons.
    rewrite find_from_next by (by apply prefix_cons_ne, eqb_false_ne).
    rewrite IH by done. f_equal. simpl. lia.
Qed.

(** X2.  [extractArg].  A line without a space has the empty argument; a
    line with one is cut after its first space, so that the text before that
    space, the space and the argument make up the line again. *)
Theorem extractArg_first_space cmd w rest :
  (occurs " " cmd = false → extractArg cmd = "") ∧
  (occurs " " w = false → (size (w +:+ String " " rest) < npos)%N →
   extractArg (w +:+ String " " rest) = rest).
Proof.
  split.
  - intros H. unfold extractArg, find. by rewrite find_from_space_none.
  - intros Hw Hsz. unfold extractArg, find.
    rewrite find_from_space_first by done. simpl.
    rewrite size_app in Hsz. unfold size in Hsz. simpl in Hsz.
    pose proof npos_modulus as Hnpos.
    destruct (N.eqb_spec (N.of_nat (String.length w)) npos) as [Heq | _];
      [lia |].
    simpl. rewrite size_add_small by lia.
    replace (N.to_nat (N.of_nat (String.length w) + 1))
      with (String.length (w +:+ " ")) by (rewrite length_app; simpl; lia).
    replace (w +:+ String " " rest) with ((w +:+ " ") +:+ rest)
      by (by rewrite app_assoc).
    apply drop_app.
Qed.

Lemma extractArg_first_space_witness :
  extractArg "help" = "" ∧ extractArg ("app" +:+ String " " "my note") = "my note".
Proof.
  split.
  - apply (proj1 (extractArg_first_space "help" "" "")). reflexivity.
  - apply (proj2 (extractArg_first_space "" "app" "my note")); reflexivity.
Defined.
End Parsing.

(** ** The branches of the prompt loop *)

Section Branches.
Implicit Types w : World.
Implicit Types cmd word rest : string.

Lemma route_exit cmd : route cmd = AExit ↔ cmd = "exit".
Proof.
  unfold route. destruct (String.eqb_spec cmd "exit") as [-> | Hne];
    [done |].
  split; [| done].
  repeat match goal with
         | |- context [if ?b then _ else _] => destruct b; try discriminate
         end.
Qed.

(** X3.  A line that starts with one of the command words [del], [new],
    [app], [ow] gets the missing-argument message whenever it does not have
    exactly two words, and also when it has two but the command word runs on
    without a space (as in [delete foo]) and the argument is a valid file
    name: such lines are never reported as unknown commands. *)
Theorem command_word_missing_argument word rest c w :
  commandWord word →
  (countWords (word +:+ rest) ≠ 2 →
   dispatch (word +:+ rest) w = Ok (Continue, put missingArgText w)) ∧
  (c ≠ " "%char →
   validateInput (extractArg (word +:+ String c rest)) = true →
   dispatch (word +:+ String c rest) w = Ok (Continue, put missingArgText w)).
Proof.
  intros Hword. split.
  - intros Hc. unfold dispatch.
    assert (route (word +:+ rest) = AMissing) as ->; [| done].
    unfold route. apply Nat.eqb_neq in Hc. rewrite Hc, !andb_false_r.
    destruct Hword as [-> | [-> | [-> | ->]]]; reflexivity.
  - intros Hc Hv. unfold dispatch.
    assert (route (word +:+ String c rest) = AMissing) as ->; [| done].
    unfold route. rewrite Hv, andb_false_r.
    assert (∀ x r, Ascii.eqb c " " = false →
              String.eqb (String c r) (String " " x) = false) as Hne.
    { intros x r H. cbn [String.eqb]. by rewrite H. }
    apply Ascii.eqb_neq in Hc.
    destruct Hword as [-> | [-> | [-> | ->]]];
      rewrite ?app_cons, ?app_nil_l; unfold compare0; cbn [take String.eqb];
      rewrite ?Hc; reflexivity.
Qed.

Lemma command_word_missing_argument_witness :
  dispatch ("new" +:+ "") (Examples.world (Some ∅) "")
  = Ok (Continue, put missingArgText (Examples.world (Some ∅) "")) ∧
  dispatch ("del" +:+ String "e" "te foo") (Examples.world (Some ∅) "")
  = Ok (Continue, put missingArgText (Examples.world (Some ∅) "")).
Proof.
  split.
  - apply (proj1 (command_word_missing_argument "new" "" " " _
                    (or_intror (or_introl eq_refl)))).
    vm_compute. discriminate.
  - apply (proj2 (command_word_missing_argument "del" "te foo" "e" _
                    (or_introl eq_refl)));
      [discriminate | reflexivity].
Defined.

(** X4.  The prompt loop is left by the line [exit] and by no other: the
    match is exact, and [exit] itself changes nothing. *)
Theorem only_exit_breaks cmd w w' :
  dispatch cmd w = Ok (Break, w') ↔ cmd = "exit" ∧ w' = w.
Proof.
  unfold dispatch. split.
  - destruct (route cmd) as [| | | |arg|arg|arg|arg mode| |] eqn:Hr;
      simpl; run.
    + apply route_exit in Hr. by intros [= <-].
    + done.
    + done.
    + by destruct (listNotes w) as [[[] ?] | |].
    + done.
    + by destruct (deleteNote arg w) as [[[] ?] | |].
    + by destruct (createNote arg w) as [[[] ?] | |].
    + by destruct (loadNote arg mode w) as [[[] ?] | |].
    + done.
    + done.
  - intros [-> ->]. reflexivity.
Qed.

Lemma listNotes_frame_cin w w' :
  listNotes w = Ok (tt, w') → cin w' = cin w ∧ localtime w' = localtime w.
Proof.
  unfold listNotes. destruct (disk w) as [d |] eqn:Hd; [| done].
  destruct (negb _); [run; by intros [= <-] |].
  destruct ((map_to_list d).*1); run; by intros [= <-].
Qed.

(** X5.  A line that hands no title to a note operation ([exit], [help],
    [cls], [list], an invalid file name, a missing argument, an unknown
    command) leaves the directory, every file in it and the pending input as
    they were; all it can do is print. *)
Theorem untitled_command_frame cmd w ctl w' :
  routedTitle (route cmd) = None →
  dispatch cmd w = Ok (ctl, w') →
  disk w' = disk w ∧ cin w' = cin w ∧ localtime w' = localtime w ∧
  ∃ text, cout w' = cout w +:+ text.
Proof.
  unfold dispatch.
  destruct (route cmd) as [| | | |arg|arg|arg|arg mode| |]; simpl; try done;
    intros _; run.
  - intros [= <- <-]. repeat split. exists "". by rewrite app_nil_r.
  - intros [= <- <-]. repeat split. by eexists.
  - intros [= <- <-]. repeat split. exists "". by rewrite app_nil_r.
  - destruct (listNotes w) as [[[] w1] | |] eqn:Hl; [| done | done].
    intros [= <- <-].
    destruct (listNotes_frame_cin _ _ Hl) as [Hcin Htime].
    rewrite (listNotes_frame _ _ Hl). repeat split; try done.
    revert Hl. unfold listNotes. destruct (disk w) as [d |]; [| done].
    destruct (negb _); [run; intros [= <-]; by eexists |].
    destruct ((map_to_list d).*1); run; intros [= <-]; simpl.
    + by eexists.
    + rewrite app_assoc. by eexists.
  - intros [= <- <-]. repeat split. by eexists.
  - intros [= <- <-]. repeat split. by eexists.
  - intros [= <- <-]. repeat split. by eexists.
Qed.

Lemma untitled_command_frame_witness :
  disk (put helpText (Examples.world (Some Examples.foo_dir) "x"))
  = disk (Examples.world (Some Examples.foo_dir) "x") ∧
  cin (put helpText (Examples.world (Some Examples.foo_dir) "x"))
  = cin (Examples.world (Some Examples.foo_dir) "x") ∧
  localtime (put helpText (Examples.world (Some Examples.foo_dir) "x"))
  = localtime (Examples.world (Some Examples.foo_dir) "x") ∧
  ∃ text, cout (put helpText (Examples.world (Some Examples.foo_dir) "x"))
          = cout (Examples.world (Some Examples.foo_dir) "x") +:+ text.
Proof.
  apply (untitled_command_frame "help"
           (Examples.world (Some Examples.foo_dir) "x") Continue);
    reflexivity.
Defined.
End Branches.

(** ** Files that the operations touch *)

Section Files.
Implicit Types w : World.
Implicit Types d : gmap string string.
Implicit Types f title : string.

Lemma openNote_other note w w' f :
  openNote note w = Ok (tt, w') → f ≠ fileName (name note) →
  stored w' f = stored w f.
Proof.
  unfold openNote. destruct (substr _ _) as [user | |]; [| done | done].
  run. unfold editSession.
  destruct (editLoop _ _ _ _) as [[newContent w1] | |] eqn:Hloop;
    [| done | done].
  apply editLoop_frame in Hloop as (Hdisk & _). simpl in Hdisk.
  unfold saveNote, getName, getContent. simpl. rewrite Hdisk.
  destruct (disk w) as [d |] eqn:Hd; run; intros [= <-] Hf;
    unfold stored; simpl; rewrite ?Hdisk, ?Hd; simpl; [| done].
  by rewrite lookup_insert_ne.
Qed.

(** X6.  A command that hands the title [t] to a note operation changes no
    file but the one of [t]: every other file of the directory is there
    afterwards exactly when it was there before, with the same contents. *)
Theorem titled_command_frame cmd t w ctl w' f :
  routedTitle (route cmd) = Some t →
  dispatch cmd w = Ok (ctl, w') →
  f ≠ fileName t →
  stored w' f = stored w f.
Proof.
  unfold dispatch.
  destruct (route cmd) as [| | | |arg|arg|arg|arg mode| |]; simpl; try done;
    intros [= ->]; run.
  - destruct (deleteNote t w) as [[[] w1] | |] eqn:Hdel; [| done | done].
    intros [= <- <-] Hf. revert Hdel. unfold deleteNote.
    destruct (disk w) as [d |] eqn:Hd;
      [destruct (bool_decide _) |]; run; intros [= <-];
      unfold stored; simpl; rewrite ?Hd; simpl; try done.
    by rewrite lookup_delete_ne.
  - destruct (createNote t w) as [[[] w1] | |] eqn:Hcr; [| done | done].
    intros [= <- <-] Hf. revert Hcr. unfold createNote.
    destruct (fs_exists t w); run; [by intros [= <-] |].
    intros Hopen. by apply (openNote_other _ _ _ _ Hopen).
  - destruct (loadNote t mode w) as [[[] w1] | |] eqn:Hld; [| done | done].
    intros [= <- <-] Hf. revert Hld. unfold loadNote.
    destruct (disk w ≫= _) as [file |]; run; [| by intros [= <-]].
    destruct (loadedNote_headerLine t mode file) as (loaded & -> & _).
    destruct (headerTimestamp (headerLine file)) as [stamp | |];
      [| done | done].
    intros Hopen. by apply (openNote_other _ _ _ _ Hopen).
Qed.

Lemma titled_command_frame_witness :
  stored
    (put ("foo" +:+ " successfully deleted!" +:+ endl2)
       (set_disk (Some (delete (fileName "foo") Examples.foo_dir))
          (Examples.world (Some Examples.foo_dir) "")))
    "bar.cppn"
  = stored (Examples.world (Some Examples.foo_dir) "") "bar.cppn".
Proof.
  apply (titled_command_frame "del foo" "foo"
           (Examples.world (Some Examples.foo_dir) "") Continue).
  - reflexivity.
  - vm_compute. reflexivity.
  - discriminate.
Defined.

(** What an editing session leaves when the directory is missing: the
    failure message, and nothing stored. *)
Lemma openNote_session_nodir note h user ls rest w :
  content note = h +:+ endl2 +:+ user → nl_free h →
  (size (content note) < size_t_modulus)%N →
  Forall nl_free ls → Forall (λ l, l ≠ quitCmd) ls →
  cin w = stream_of (unlines ls +:+ quitCmd +:+ endl +:+ rest) →
  disk w = None →
  openNote note w
  = Ok (tt,
        put ("ERROR: " +:+ name note +:+ " failed to save." +:+ endl2)
          (set_cin (stream_of rest)
             (put user
                (put ("Type !quit on a new line to exit." +:+ endl2)
                   (put (name note +:+ headSep +:+ timestamp note +:+ endl)
                      w))))).
Proof.
  intros Hc Hh Hsz Hnl Hq Hw Hd.
  rewrite (openNote_run note h user w Hc Hh Hsz). run.
  rewrite (editSession_lines ls rest) by done.
  unfold saveNote. simpl. by rewrite Hd.
Qed.

(** X8.  With the save directory missing, [createNote] still opens the
    editor and reads the lines up to the sentinel; then saving fails: the
    failure message is printed, the directory is not created and the typed
    lines are stored nowhere. *)
Theorem createNote_without_directory w title ls rest :
  let head := title +:+ headSep +:+ put_time (localtime w) in
  disk w = None →
  nl_free title → (size (head +:+ endl2) < npos)%N →
  Forall nl_free ls → Forall (λ l, l ≠ quitCmd) ls →
  cin w = stream_of (unlines ls +:+ quitCmd +:+ endl +:+ rest) →
  ∃ w', createNote title w = Ok (tt, w') ∧
        disk w' = None ∧ cin w' = stream_of rest ∧
        cout w' = cout w +:+ head +:+ endl
                  +:+ "Type !quit on a new line to exit." +:+ endl2
                  +:+ "ERROR: " +:+ title +:+ " failed to save." +:+ endl2.
Proof.
  intros head Hd Ht Hsz Hnl Hq Hcin. subst head.
  pose proof npos_modulus as Hnpos.
  pose proof (nl_free_put_time (localtime w)) as Hstamp.
  unfold createNote, fs_exists. rewrite Hd. run.
  unfold getName, getTimestamp. simpl.
  rewrite (openNote_session_nodir _
             (title +:+ headSep +:+ put_time (localtime w)) "" ls rest);
    try done.
  - eexists. split; [reflexivity |]. simpl. repeat split; try done.
    by rewrite app_nil_r, !app_assoc.
  - simpl. by rewrite app_nil_r, !app_assoc.
  - by apply header_nl_free.
  - simpl. rewrite !app_assoc in Hsz. lia.
Qed.

Lemma createNote_without_directory_witness :
  ∃ w', createNote "foo" (Examples.world None ("hi" +:+ endl +:+ quitCmd +:+ endl +:+ ""))
        = Ok (tt, w') ∧
        disk w' = None ∧ cin w' = stream_of "" ∧
        cout w' = "" +:+ ("foo" +:+ headSep +:+ put_time Examples.clock0) +:+ endl
                  +:+ "Type !quit on a new line to exit." +:+ endl2
                  +:+ "ERROR: " +:+ "foo" +:+ " failed to save." +:+ endl2.
Proof.
  apply (createNote_without_directory
           (Examples.world None ("hi" +:+ endl +:+ quitCmd +:+ endl +:+ ""))
           "foo" ["hi"] ""); try reflexivity.
  - apply Forall_nl_free_dec. reflexivity.
  - apply Forall_not_quit_dec. reflexivity.
Defined.


End Files.

(** ** Listing the directory *)

Section Listing.
Implicit Types w : World.
Implicit Types d : gmap string string.
Implicit Types title : string.


Lemma take_app s t : take (String.length s) (s +:+ t) = s.
Proof.
  induction s as [|c s IH]; [by destruct t |].
  rewrite app_cons. simpl. by rewrite IH.
Qed.

Lemma rfind_dot_fileName title i :
  rfind_dot (fileName title) i = Some (i + String.length title).
Proof.
  unfold fileName. revert i. induction title as [|c t IH]; intros i.
  - rewrite app_nil_l. simpl. f_equal. lia.
  - rewrite app_cons. cbn [rfind_dot]. rewrite IH. f_equal. simpl. lia.
Qed.

(** The stem of a note's file name is its title. *)
Lemma stem_fileName title : title ≠ "" → stem (fileName title) = title.
Proof.
  intros Hne. unfold stem.
  assert (∀ x, String.length x < 5 → String.eqb (fileName title) x = false)
    as Hlen.
  { intros x Hx. apply String.eqb_neq. intros Heq.
    apply (f_equal String.length) in Heq. unfold fileName in Heq.
    rewrite length_app in Heq. simpl in Heq. lia. }
  rewrite !Hlen by (simpl; lia). simpl.
  rewrite rfind_dot_fileName. destruct title as [|c t]; [done |].
  cbn [String.length Nat.add]. unfold fileName.
  apply (take_app (String c t)).
Qed.

Lemma concat_cons x xs :
  String.concat "" (x :: xs) = x +:+ String.concat "" xs.
Proof. destruct xs; [by rewrite app_nil_r | done]. Qed.

Lemma concat_stems titles :
  Forall (λ t, t ≠ "") titles →
  String.concat "" (map (λ f, stem f +:+ endl) (fileName <$> titles))
  = unlines titles.
Proof.
  induction 1 as [|t ts Ht _ IH]; [done |].
  rewrite fmap_cons. cbn [map]. rewrite concat_cons, IH, stem_fileName by done.
  by rewrite app_assoc.
Qed.

(** X10.  [listNotes] on an existing directory: when it is empty, the
    no-files message; when it holds the files of the notes [titles], in the
    order of enumeration, one line per note with the title alone, the
    extension stripped, and a blank line after them.  Nothing but the output
    changes. *)
Theorem listNotes_titles w d titles :
  disk w = Some d →
  (d = ∅ → listNotes w = Ok (tt, put ("No files found." +:+ endl2) w)) ∧
  (titles ≠ [] → Forall (λ t, t ≠ "") titles →
   (map_to_list d).*1 = fileName <$> titles →
   listNotes w = Ok (tt, put endl (put (unlines titles) w))).
Proof.
  intros Hd. unfold listNotes. rewrite Hd. simpl. split.
  - intros ->. by rewrite map_to_list_empty.
  - intros Hne Hall ->. destruct titles as [|t ts]; [done |].
    rewrite fmap_cons. run. by rewrite <- fmap_cons, concat_stems.
Qed.

Lemma listNotes_titles_witness :
  listNotes (Examples.world (Some ∅) "")
  = Ok (tt, put ("No files found." +:+ endl2) (Examples.world (Some ∅) "")) ∧
  listNotes (Examples.world (Some Examples.foo_dir) "")
  = Ok (tt, put endl (put (unlines ["foo"])
                        (Examples.world (Some Examples.foo_dir) ""))).
Proof.
  split.
  - apply (proj1 (listNotes_titles (Examples.world (Some ∅) "") ∅ []
                    eq_refl)). reflexivity.
  - apply (proj2 (listNotes_titles (Examples.world (Some Examples.foo_dir) "")
                    Examples.foo_dir ["foo"] eq_refl)).
    + discriminate.
    + repeat constructor. discriminate.
    + vm_compute. reflexivity.
Defined.
End Listing.

(** ** Time stamps and header lines *)

Section Stamps.
Implicit Types s head rest : string.

Lemma below_forallb (P : nat → bool) bound :
  forallb P (seq 0 bound) = true → ∀ n, n < bound → P n = true.
Proof.
  rewrite forallb_forall. intros H n Hn. apply H, in_seq. lia.
Qed.

Lemma length_pad2 n : n < 100 → String.length (pad2 n) = 2.
Proof.
  intros Hn.
  apply (below_forallb (λ n, Nat.eqb (String.length (pad2 n)) 2) 100) in Hn;
    [by apply Nat.eqb_eq in Hn | by vm_compute].
Qed.

Lemma length_year y : y < 81 * 100 → String.length (dec (1900 + y)) = 4.
Proof.
  intros Hy.
  apply (below_forallb (λ y, Nat.eqb (String.length (dec (1900 + y))) 4) (81 * 100))
    in Hy; [by apply Nat.eqb_eq in Hy | by vm_compute].
Qed.

Lemma no_bar_cons a s : a ≠ "|"%char → occurs "|" s = false →
  occurs "|" (String a s) = false.
Proof.
  intros Ha Hs. simpl. rewrite Hs, orb_false_r.
  apply Ascii.eqb_neq. congruence.
Qed.

Lemma no_bar_dec n : occurs "|" (dec n) = false.
Proof.
  unfold dec. induction (Nat.to_uint n) as [|u IH|u IH|u IH|u IH|u IH|u IH
                                             |u IH|u IH|u IH|u IH];
    [done | by apply no_bar_cons ..].
Qed.

Lemma no_bar_pad2 n : occurs "|" (pad2 n) = false.
Proof.
  unfold pad2. destruct (Nat.ltb n 10); [| apply no_bar_dec].
  by rewrite occurs_app, no_bar_dec.
Qed.

(** X11.  The time stamp of [getCurrentTime] is one line without a vertical
    bar, so that it cannot be taken for a separator or end the header line;
    and for a calendar time (a year up to 9999, the other fields within two
    digits) it has exactly the 18 characters of [YYYY-MM-DD [HH:MM]]. *)
Theorem put_time_shape t :
  nl_free (put_time t) ∧ occurs "|" (put_time t) = false ∧
  (tm_year t < 81 * 100 → tm_mon t < 99 → tm_mday t < 100 →
   tm_hour t < 100 → tm_min t < 100 →
   String.length (put_time t) = 18).
Proof.
  split; [apply nl_free_put_time |]. split.
  - unfold put_time. by rewrite !occurs_app, !no_bar_pad2, no_bar_dec.
  - intros Hy Hm Hd Hh Hmin. unfold put_time.
    rewrite !length_app, length_year, !length_pad2 by lia. reflexivity.
Qed.

Lemma put_time_shape_witness : String.length (put_time Examples.clock0) = 18.
Proof.
  apply (proj2 (proj2 (put_time_shape Examples.clock0))); vm_compute; lia.
Defined.

(** What [take_line] returns, whatever the text. *)
Lemma take_line_cases s :
  let '(l, rest, e) := take_line s in
  nl_free l ∧
  if e then s = l ∧ rest = "" else s = l +:+ endl +:+ rest.
Proof.
  induction s as [|c s IH]; [done |]. simpl.
  destruct (Ascii.eqb_spec c nl) as [-> | Hc]; [done |].
  destruct (take_line s) as [[l rest] e]. destruct IH as [Hl IH].
  split.
  - apply nl_free_cons; done.
  - destruct e.
    + destruct IH as [-> ->]. done.
    + rewrite IH. by rewrite app_cons.
Qed.

Lemma newline_terminated_after l rest :
  newline_terminated (l +:+ endl +:+ rest) = newline_terminated rest.
Proof.
  induction l as [|c l IH].
  - rewrite app_nil_l. unfold endl. rewrite app_cons, app_nil_l.
    cbn [newline_terminated]. destruct rest; [apply Ascii.eqb_refl | done].
  - rewrite app_cons. cbn [newline_terminated].
    destruct (l +:+ endl +:+ rest) eqn:E; [by destruct l | done].
Qed.

Lemma newline_terminated_open l :
  nl_free l → l ≠ "" → newline_terminated l = false.
Proof.
  unfold nl_free. induction l as [|c l IH]; [done |]. intros H _.
  simpl in H. apply orb_false_elim in H as [Hc Hl].
  cbn [newline_terminated]. destruct l as [|d l].
  - by rewrite Ascii.eqb_sym.
  - by apply IH.
Qed.

(** The append-mode loop on any text: the text itself, with a line feed
    added when its last line has none. *)
Lemma readLines_any fuel s line acc :
  String.length s < fuel →
  readLines fuel (stream_of s) line acc
  = acc +:+ (if newline_terminated s then s else s +:+ endl).
Proof.
  revert s line acc. induction fuel as [|fuel IH]; intros s line acc Hf;
    [lia |].
  destruct (decide (s = "")) as [-> | Hne]; [by rewrite app_nil_r |].
  cbn [readLines]. rewrite getline_good by done.
  pose proof (take_line_cases s) as Hcases.
  pose proof (take_line_shorter s) as Hshort.
  destruct (take_line s) as [[l rest] e]. destruct Hcases as [Hl Hs].
  simpl in Hshort. destruct e.
  - destruct Hs as [-> ->]. rewrite newline_terminated_open by done.
    destruct fuel; by rewrite ?app_assoc.
  - change {| buf := rest; eofbit := false; failbit := false |}
      with (stream_of rest).
    rewrite IH by (destruct s; simpl in *; [done | lia]).
    rewrite Hs, newline_terminated_after.
    destruct (newline_terminated rest); by rewrite !app_assoc.
Qed.

(** X12.  [loadNote] in append mode rebuilds the stored text line by line:
    the note it hands to the editor holds the file as it is when the text
    after the header line is empty or ends with a line feed, and with one
    line feed added at the end otherwise. *)
Theorem loadedNote_append_text title head rest stamp :
  nl_free head → headerTimestamp head = Ok stamp →
  loadedNote title true (head +:+ endl +:+ rest)
  = Ok (mkNote title stamp
          (head +:+ endl +:+
           (if newline_terminated rest then rest else rest +:+ endl))).
Proof.
  intros Hh Hs. rewrite (loadedNote_header title true head rest stamp Hh Hs).
  by rewrite readLines_any, app_nil_l by lia.
Qed.

Lemma loadedNote_append_text_witness :
  loadedNote "foo" true
    (("foo" +:+ headSep +:+ Examples.stamp0) +:+ endl +:+ (endl +:+ "abc"))
  = Ok (mkNote "foo" Examples.stamp0
          (("foo" +:+ headSep +:+ Examples.stamp0) +:+ endl +:+
           (if newline_terminated (endl +:+ "abc") then endl +:+ "abc"
            else (endl +:+ "abc") +:+ endl))).
Proof.
  apply (loadedNote_append_text "foo" ("foo" +:+ headSep +:+ Examples.stamp0)
           (endl +:+ "abc") Examples.stamp0); reflexivity.
Defined.
End Stamps.

(** ** Header lines that [loadNote] cannot read *)

Section Headers.
Implicit Types w : World.
Implicit Types d : gmap string string.
Implicit Types s head pat title stamp : string.

Lemma prefix_length pat s :
  String.prefix pat s = true → String.length pat ≤ String.length s.
Proof.
  revert s. induction pat as [|a pat IH]; intros [|c s]; simpl; try lia;
    try done.
  destruct (ascii_dec a c); [| done]. intros H%IH. lia.
Qed.

Lemma find_from_bound pat s i j :
  find_from pat s i = Some j →
  i ≤ j ∧ j + String.length pat ≤ i + String.length s.
Proof.
  revert i. induction s as [|c s IH]; intros i; cbn [find_from].
  - destruct (String.prefix pat "") eqn:Hp; [| done].
    intros [= <-]. apply prefix_length in Hp. lia.
  - destruct (String.prefix pat (String c s)) eqn:Hp.
    + intros [= <-]. apply prefix_length in Hp. lia.
    + intros H%IH. simpl. lia.
Qed.

Lemma find_npos s pat :
  (size s < npos)%N → find s pat = npos ↔ find_from pat s 0 = None.
Proof.
  intros Hsz. unfold find. destruct (find_from pat s 0) as [j |] eqn:Hj;
    [| done].
  apply find_from_bound in Hj. unfold size in Hsz. split; [lia | done].
Qed.

(** X13.  The time stamp that [loadNote] reads from a header line.  With a
    separator in the line there is always one.  Without a separator the
    position wraps around to 2: the time stamp is then the line without its
    first two characters, and on a line of fewer than two characters
    [substr] throws.  That is the only case in which it throws. *)
Theorem headerTimestamp_cases head :
  (size head < npos)%N →
  (find head headSep ≠ npos → ∃ stamp, headerTimestamp head = Ok stamp) ∧
  (find head headSep = npos → 2 ≤ String.length head →
   headerTimestamp head = Ok (drop 2 head)) ∧
  (headerTimestamp head = Throw out_of_range ↔
   find head headSep = npos ∧ String.length head < 2).
Proof.
  intros Hsz. pose proof npos_modulus as Hnpos.
  assert (size_add npos (size headSep) = 2%N) as Hwrap by reflexivity.
  unfold headerTimestamp. unfold size in Hsz.
  destruct (find_from headSep head 0) as [j |] eqn:Hj.
  - pose proof (find_from_bound _ _ _ _ Hj) as [_ Hb]. simpl in Hb.
    assert (find head headSep = N.of_nat j) as Hf by (unfold find; by rewrite Hj).
    rewrite Hf.
    assert (size_add (N.of_nat j) (size headSep) = N.of_nat (j + 3)) as ->.
    { rewrite size_add_small; unfold size; simpl; lia. }
    unfold substr, size.
    destruct (N.ltb_spec (N.of_nat (String.length head)) (N.of_nat (j + 3)));
      [lia |].
    split; [by eexists |]. split; [lia |]. split; [done | lia].
  - assert (find head headSep = npos) as Hf by (unfold find; by rewrite Hj).
    rewrite Hf, Hwrap. unfold substr, size.
    destruct (N.ltb_spec (N.of_nat (String.length head)) 2).
    + split; [done |]. split; [lia |]. split; [intros _; split; [done | lia] | done].
    + split; [done |]. split; [done |]. split; [done | lia].
Qed.

Lemma headerTimestamp_cases_witness :
  (∃ stamp, headerTimestamp ("foo" +:+ headSep +:+ Examples.stamp0) = Ok stamp) ∧
  headerTimestamp "garbage" = Ok (drop 2 "garbage") ∧
  headerTimestamp "x" = Throw out_of_range.
Proof.
  split; [| split].
  - apply (proj1 (headerTimestamp_cases
                    ("foo" +:+ headSep +:+ Examples.stamp0) eq_refl)).
    vm_compute. discriminate.
  - apply (proj1 (proj2 (headerTimestamp_cases "garbage" eq_refl)));
      [reflexivity | vm_compute; lia].
  - apply (proj2 (proj2 (headerTimestamp_cases "x" eq_refl))).
    split; [reflexivity | vm_compute; lia].
Defined.

Lemma find_from_endl2_none head i :
  nl_free head → find_from endl2 (head +:+ endl) i = None.
Proof.
  unfold nl_free. revert i. induction head as [|c h IH]; intros i H.
  - reflexivity.
  - cbn [occurs] in H. apply orb_false_elim in H as [Hc Hh].
    rewrite app_cons, find_from_next
      by (rewrite endl2_eq; by apply prefix_cons_ne, eqb_false_ne).
    by apply IH.
Qed.

(** X15.  A stored file that holds the header line alone, with no blank
    line after it: in append mode [openNote] finds no separator, its position
    wraps around to 1, and the user content becomes the header line without
    its first character.  The file is stored again as the header, a blank
    line, that remainder of the header as a body line, and the typed lines. *)
Theorem append_header_only w d title stamp ls rest :
  let head := title +:+ headSep +:+ stamp in
  disk w = Some d → d !! fileName title = Some (head +:+ endl) →
  countWords title = 1 → validateInput title = true →
  nl_free title → nl_free stamp →
  (size (head +:+ endl) < npos)%N →
  Forall nl_free ls → Forall (λ l, l ≠ quitCmd) ls →
  cin w = stream_of (unlines ls +:+ quitCmd +:+ endl +:+ rest) →
  ∃ w', dispatch ("app " +:+ title) w = Ok (Continue, w') ∧
        disk w' = Some (<[fileName title :=
                            head +:+ endl2 +:+ drop 1 (head +:+ endl)
                            +:+ unlines ls]> d).
Proof.
  intros head Hd Hfile Hc Hv Ht Hs Hsz Hnl Hq Hcin. subst head.
  set (head := title +:+ headSep +:+ stamp) in *.
  pose proof npos_modulus as Hnpos.
  pose proof (header_nl_free _ _ Ht Hs) as Hh. fold head in Hh.
  assert (headerTimestamp head = Ok stamp) as Hts.
  { apply headerTimestamp_header; [by apply validateInput_no_bar |].
    rewrite size_app in Hsz. fold head. lia. }
  assert (loadedNote title true (head +:+ endl)
          = Ok (mkNote title stamp (head +:+ endl))) as Hload.
  { pose proof (loadedNote_header title true head "" stamp Hh Hts) as H.
    rewrite !app_nil_r in H. exact H. }
  unfold dispatch. rewrite route_app by done. simpl. run.
  unfold loadNote. rewrite Hd. simpl. rewrite Hfile. run.
  rewrite Hload.
  unfold openNote, getContent, getName, getTimestamp.
  cbn [content setContent name timestamp].
  unfold find. rewrite find_from_endl2_none by done.
  assert (size_add npos 2 = 1%N) as -> by reflexivity.
  assert (substr (head +:+ endl) 1 = Ok (drop 1 (head +:+ endl))) as ->.
  { unfold substr. rewrite size_app. change (size endl) with 1%N.
    destruct (N.ltb_spec (size head + 1) 1); [lia | done]. }
  run. rewrite (editSession_lines ls rest) by done.
  unfold saveNote, getName, getContent. simpl. rewrite Hd. run.
  eexists. split; [reflexivity |]. simpl. subst head. by rewrite !app_assoc.
Qed.

Lemma append_header_only_witness :
  ∃ w', dispatch ("app " +:+ "foo")
          (Examples.world
             (Some {[ fileName "foo" := ("foo" +:+ headSep +:+ Examples.stamp0) +:+ endl ]})
             (unlines ["x"] +:+ quitCmd +:+ endl +:+ ""))
        = Ok (Continue, w') ∧
        disk w' = Some (<[fileName "foo" :=
                            ("foo" +:+ headSep +:+ Examples.stamp0) +:+ endl2
                            +:+ drop 1 (("foo" +:+ headSep +:+ Examples.stamp0) +:+ endl)
                            +:+ unlines ["x"]]>
                          {[ fileName "foo" := ("foo" +:+ headSep +:+ Examples.stamp0) +:+ endl ]}).
Proof.
  apply (append_header_only
           (Examples.world
              (Some {[ fileName "foo" := ("foo" +:+ headSep +:+ Examples.stamp0) +:+ endl ]})
              (unlines ["x"] +:+ quitCmd +:+ endl +:+ ""))
           {[ fileName "foo" := ("foo" +:+ headSep +:+ Examples.stamp0) +:+ endl ]}
           "foo" Examples.stamp0 ["x"] ""); try reflexivity.
  - apply Forall_nl_free_dec. reflexivity.
  - apply Forall_not_quit_dec. reflexivity.
Defined.

(** X14.  Opening an existing note in append mode and leaving at once: for
    a stored note in the format that the program writes (header line, blank
    line, body empty or ended by a line feed) the file is stored again with
    the same contents, and the directory is as it was. *)
Theorem append_nothing_keeps_note w d title stamp body rest :
  let prior := title +:+ headSep +:+ stamp +:+ endl2 +:+ body in
  disk w = Some d → d !! fileName title = Some prior →
  countWords title = 1 → validateInput title = true →
  nl_free title → nl_free stamp →
  newline_terminated body = true →
  (size prior < npos)%N →
  cin w = stream_of (quitCmd +:+ endl +:+ rest) →
  ∃ w', dispatch ("app " +:+ title) w = Ok (Continue, w') ∧
        disk w' = disk w ∧ cin w' = stream_of rest.
Proof.
  intros prior Hd Hfile Hc Hv Ht Hs Hb Hsz Hcin. subst prior.
  pose proof npos_modulus as Hnpos.
  unfold dispatch. rewrite route_app by done. simpl. run.
  unfold loadNote. rewrite Hd. simpl. rewrite Hfile. run.
  rewrite (loadedNote_append title title stamp body)
    by (done || by apply find_headSep, validateInput_no_bar).
  destruct (openNote_session
              (mkNote title stamp
                 (title +:+ headSep +:+ stamp +:+ endl2 +:+ body))
              (title +:+ headSep +:+ stamp) body [] rest d w)
    as (w' & Hrun & Hdisk & Hcin');
    [by rewrite !app_assoc | by apply header_nl_free | simpl; lia
    | done | done | done | done |].
  rewrite Hrun. exists w'. split; [done |]. split; [| done].
  rewrite Hdisk. simpl. rewrite app_nil_r. f_equal.
  by apply insert_id.
Qed.

Lemma append_nothing_keeps_note_witness :
  ∃ w', dispatch ("app " +:+ "foo")
          (Examples.world (Some Examples.foo_dir) (quitCmd +:+ endl +:+ "list"))
        = Ok (Continue, w') ∧
        disk w' = disk (Examples.world (Some Examples.foo_dir)
                          (quitCmd +:+ endl +:+ "list")) ∧
        cin w' = stream_of "list".
Proof.
  apply (append_nothing_keeps_note
           (Examples.world (Some Examples.foo_dir) (quitCmd +:+ endl +:+ "list"))
           Examples.foo_dir "foo" Examples.stamp0 ("hello" +:+ endl) "list");
    reflexivity.
Defined.
End Headers.

(** ** How a command can end the process, and the end of the input *)

Section Endings.
Implicit Types w : World.
Implicit Types cmd title head file : string.



Lemma length_drop n s : String.length (drop n s) ≤ String.length s.
Proof.
  revert s. induction n as [|n IH]; intros [|c s]; simpl; try lia.
  specialize (IH s). lia.
Qed.







End Endings.

(** ** Start and end of the process *)

Section Process.
Implicit Types w : World.
Implicit Types cmd : string.

Lemma put_put a b w : put b (put a w) = put (a +:+ b) w.
Proof. unfold put. simpl. by rewrite app_assoc. Qed.

(** On an existing directory [listNotes] only prints. *)
Lemma listNotes_dir w d :
  disk w = Some d →
  ∃ text, listNotes w = Ok (tt, put text w) ∧
          (d = ∅ → text = "No files found." +:+ endl2).
Proof.
  intros Hd. unfold listNotes. rewrite Hd.
  rewrite bool_decide_eq_true_2 by done. cbn [negb].
  destruct ((map_to_list d).*1) as [|f fs] eqn:Hfs.
  - by eexists.
  - run. rewrite put_put. eexists. split; [reflexivity |].
    intros ->. by rewrite map_to_list_empty in Hfs.
Qed.

(** X17.  [main] makes sure that the save directory exists before the first
    prompt: a missing directory is created empty, an existing one is kept
    with its files.  So [list] as the first command does not throw, and on a
    directory that was missing it reports that there are no files; [exit]
    then ends [main] normally, the rest of the input unread. *)
Theorem main_creates_directory w rest passes :
  cin w = stream_of ("list" +:+ endl +:+ "exit" +:+ endl +:+ rest) →
  ∃ w', main (S (S passes)) w = Ok (tt, w') ∧
        disk w' = Some (default ∅ (disk w)) ∧
        cin w' = stream_of rest ∧
        (disk w = None →
         cout w' = cout w +:+ welcomeText +:+ "$~ " +:+ "No files found."
                   +:+ endl2 +:+ "$~ ").
Proof.
  intros Hcin. unfold main, promptHandler. run.
  pose (w1 := put ("Enter a command (new | app | ow | list | del | help | cls | exit)" +:+ endl2)
                (put ("Welcome to CPPNotes!" +:+ endl) w)).
  fold w1. change (disk w1) with (disk w).
  assert (∀ d, ∃ w',
            promptLoop (S (S passes)) "" (set_disk (Some d) w1) = Ok (tt, w') ∧
            disk w' = Some d ∧ cin w' = stream_of rest ∧
            (d = ∅ →
             cout w' = cout w1 +:+ "$~ " +:+ "No files found." +:+ endl2
                       +:+ "$~ ")) as Hloop.
  { intros d. cbn [promptLoop]. unfold promptIter. run.
    rewrite (cin_getline_line "list" ("exit" +:+ endl +:+ rest)) by done.
    cbn beta iota. change (dispatch "list") with (perform "list" AList).
    cbn [perform]. run.
    destruct (listNotes_dir
                (set_cin (stream_of ("exit" +:+ endl +:+ rest))
                   (put "$~ " (set_disk (Some d) w1))) d eq_refl)
      as (text & -> & Htext).
    cbn [fst snd]. cbn [promptLoop]. unfold promptIter. run.
    rewrite (cin_getline_line "exit" rest) by done.
    cbn beta iota. change (dispatch "exit") with (perform "exit" AExit).
    cbn [perform]. run. cbn [fst snd]. eexists. split; [reflexivity |].
    simpl. split; [done |]. split; [done |].
    intros ->. rewrite (Htext eq_refl). by rewrite !app_assoc. }
  destruct (disk w) as [d |] eqn:Hd.
  - rewrite bool_decide_eq_true_2 by done. cbn [negb].
    destruct (Hloop d) as (w' & Hrun & Hdisk & Hcin' & _).
    assert (set_disk (Some d) w1 = w1) as Hsame
      by (subst w1; destruct w; simpl in *; by subst).
    rewrite Hsame in Hrun. rewrite Hrun. exists w'. by repeat split.
  - rewrite bool_decide_eq_false_2 by (by intros [? ?]). cbn [negb].
    destruct (Hloop ∅) as (w' & Hrun & Hdisk & Hcin' & Hout).
    rewrite Hrun. exists w'. repeat split; try done.
    intros _. rewrite (Hout eq_refl). subst w1. simpl.
    unfold welcomeText. by rewrite !app_assoc.
Qed.

Lemma main_creates_directory_witness :
  ∃ w', main 2 (Examples.world None ("list" +:+ endl +:+ "exit" +:+ endl +:+ "tail"))
        = Ok (tt, w') ∧
        disk w' = Some (default ∅ None) ∧
        cin w' = stream_of "tail" ∧
        (@None (gmap string string) = None →
         cout w' = "" +:+ welcomeText +:+ "$~ " +:+ "No files found."
                   +:+ endl2 +:+ "$~ ").
Proof.
  apply (main_creates_directory
           (Examples.world None ("list" +:+ endl +:+ "exit" +:+ endl +:+ "tail"))
           "tail" 0).
  reflexivity.
Defined.
Lemma openNote_bad_cin note w r :
  good (cin w) = false → openNote note w ≠ Ok r.
Proof.
  intros Hg. unfold openNote. destruct (substr _ _) as [user | |];
    [| done | done].
  run. unfold editSession. by rewrite editLoop_bad.
Qed.

(** With [cin] not good a command that returns has not touched [cin]:
    the editor would not have returned. *)
Lemma dispatch_bad_cin cmd w ctl w' :
  good (cin w) = false → dispatch cmd w = Ok (ctl, w') → cin w' = cin w.
Proof.
  intros Hg. unfold dispatch.
  destruct (route cmd) as [| | | |arg|arg|arg|arg mode| |]; simpl; run;
    try (by intros [= <- <-]).
  - destruct (listNotes w) as [[[] w1] | |] eqn:Hl; [| done | done].
    intros [= <- <-]. by apply listNotes_frame_cin in Hl as [? _].
  - unfold deleteNote. destruct (disk w) as [d |];
      [destruct (bool_decide _) |]; run; by intros [= <- <-].
  - unfold createNote. destruct (fs_exists arg w); run;
      [by intros [= <- <-] |].
    destruct (openNote _ w) as [[[] w1] | |] eqn:Hopen; [| done | done].
    by apply openNote_bad_cin in Hopen.
  - unfold loadNote. destruct (disk w ≫= _) as [file |]; run;
      [| by intros [= <- <-]].
    destruct (loadedNote arg mode file) as [n | |]; [| done | done].
    destruct (openNote n w) as [[[] w1] | |] eqn:Hopen; [| done | done].
    by apply openNote_bad_cin in Hopen.
Qed.

Lemma dispatch_break cmd w w' :
  dispatch cmd w = Ok (Break, w') → cmd = "exit".
Proof.
  unfold dispatch.
  destruct (route cmd) as [| | | |arg|arg|arg|arg mode| |] eqn:Hr;
    simpl; run; try done.
  - intros _. by apply route_exit.
  - by destruct (listNotes w) as [[[] ?] | |].
  - by destruct (deleteNote arg w) as [[[] ?] | |].
  - by destruct (createNote arg w) as [[[] ?] | |].
  - by destruct (loadNote arg mode w) as [[[] ?] | |].
Qed.

Lemma promptLoop_bad_cin passes cmd w r :
  good (cin w) = false → cmd ≠ "exit" → promptLoop passes cmd w ≠ Ok r.
Proof.
  revert w. induction passes as [|passes IH]; intros w Hg Hcmd; [done |].
  cbn [promptLoop]. unfold promptIter. run.
  unfold cin_getline, getline. cbn [cin put]. rewrite Hg. cbn beta iota.
  set (w1 := set_cin _ _).
  assert (good (cin w1) = false) as Hg1
    by (subst w1; unfold good; simpl; apply andb_false_r).
  destruct (dispatch cmd w1) as [[[] w2] | |] eqn:Hd; [| | done | done].
  - by apply dispatch_break in Hd.
  - cbn [fst snd]. apply IH; [| done].
    by rewrite (dispatch_bad_cin _ _ _ _ Hg1 Hd).
Qed.

(** X18.  At the end of the input the prompt loop never returns.  Once
    [cin] has failed, the command variable keeps its last value and that
    command is run again on every pass; when the input ends before any
    command is read, it is the empty command that repeats.  Unless that last
    command is [exit], no number of passes ends the loop normally: it goes
    on for ever, or a command throws. *)
Theorem end_of_input_never_returns passes cmd w r :
  (good (cin w) = false ∧ cmd ≠ "exit") ∨
  (good (cin w) = true ∧ buf (cin w) = "") →
  promptLoop passes cmd w ≠ Ok r.
Proof.
  intros [[Hg Hcmd] | [Hg Hbuf]]; [by apply promptLoop_bad_cin |].
  destruct passes as [|passes]; [done |].
  cbn [promptLoop]. unfold promptIter. run.
  unfold cin_getline, getline. cbn [cin put]. rewrite Hg, Hbuf.
  cbn beta iota. change (dispatch "") with (perform "" AUnknown).
  cbn [perform]. run. cbn [fst snd].
  by apply promptLoop_bad_cin.
Qed.

Lemma end_of_input_never_returns_witness :
  promptLoop 5 "" (Examples.world (Some Examples.foo_dir) "")
  ≠ Ok (tt, Examples.world (Some Examples.foo_dir) "").
Proof.
  apply (end_of_input_never_returns 5 ""
           (Examples.world (Some Examples.foo_dir) "")).
  right. split; reflexivity.
Defined.
End Process.
(** ** Characters of a text *)

Section CharSets.
Implicit Types text chars a b : string.

Lemma containsCharsFrom_cons c text chars :
  containsCharsFrom (String c text) chars
  = occurs c chars || containsCharsFrom text chars.
Proof. simpl. by destruct (occurs c chars). Qed.

(** X19.  [containsCharsFrom] looks at every character of the text and
    every character of the set: over a text in two parts, and over a set in
    two parts, it is the disjunction of the two answers; and the answer is
    no for the empty text and for the empty set. *)
Theorem containsCharsFrom_parts text chars a b :
  containsCharsFrom (a +:+ b) chars
  = containsCharsFrom a chars || containsCharsFrom b chars ∧
  containsCharsFrom text (a +:+ b)
  = containsCharsFrom text a || containsCharsFrom text b ∧
  containsCharsFrom "" chars = false ∧
  containsCharsFrom text "" = false.
Proof.
  split; [| split; [| split]].
  - induction a as [|c a IH]; [done |].
    rewrite app_cons, !containsCharsFrom_cons, IH. by rewrite orb_assoc.
  - induction text as [|c t IH]; [done |].
    rewrite !containsCharsFrom_cons, IH, occurs_app.
    destruct (occurs c a), (occurs c b), (containsCharsFrom t a); done.
  - done.
  - induction text as [|c t IH]; [done |].
    by rewrite containsCharsFrom_cons, IH.
Qed.
End CharSets.

(** ** A session of several commands *)

Section Sessions.
Implicit Types w : World.
Implicit Types d : gmap string string.
Implicit Types title stamp body rest : string.
Implicit Types ls : list string.




End Sessions.

Section ExitSample.
Lemma only_exit_breaks_witness :
  dispatch "exit" (Examples.world (Some Examples.foo_dir) "new x")
  = Ok (Break, Examples.world (Some Examples.foo_dir) "new x").
Proof.
  apply (proj2 (only_exit_breaks "exit"
                  (Examples.world (Some Examples.foo_dir) "new x")
                  (Examples.world (Some Examples.foo_dir) "new x"))).
  split; reflexivity.
Defined.
End ExitSample.
